(** * A Vision Transformer classifier: model, training loop and test loop

    Shallow embedding of [vit.test_2.py].  The script builds a ViT out of
    [torch.nn] modules, trains it with Adam and reports the test accuracy.

    Conventions of the embedding:
    - a tensor is a nested list, outermost dimension first; its shape is
      stated by the predicates [shape1] ... [shape4];
    - floating-point scalars are kept abstract (class [Scalar]): the network
      is a term over the arithmetic operations, the comparison of [torch.max]
      and the literals of the script;
    - the random number generator is an explicit state (class [Rng]);
    - Python exceptions are the [Raise] results of the [result] type;
    - the [torch.nn] modules the script instantiates are modelled after
      their documented semantics, under the names of the library. *)

From Stdlib Require Import List ZArith QArith Qreduction Qround Bool Arith Lia Permutation.
From Stdlib Require PrimFloat Uint63.
Import ListNotations.

Set Implicit Arguments.
Local Open Scope nat_scope.

(** ** Exceptions and results *)

Inductive error : Type :=
| RuntimeError        (* shape mismatch detected by a tensor operation *)
| IndexError          (* index or reduction over an empty dimension *)
| AssertionError      (* [assert] of a torch constructor *)
| ValueError          (* rejected constructor argument *)
| ZeroDivisionError   (* Python [/], [//] or [%] by zero *)
| FileNotFoundError.  (* a data set directory that is missing or holds no image *)

Inductive result (A : Type) : Type :=
| Ok (a : A)
| Raise (e : error).

Arguments Ok {A} a.
Arguments Raise {A} e.

Definition rbind {A B} (r : result A) (k : A -> result B) : result B :=
  match r with
  | Ok a => k a
  | Raise e => Raise e
  end.

Fixpoint rmapM {A B} (f : A -> result B) (xs : list A) : result (list B) :=
  match xs with
  | [] => Ok []
  | x :: xs' => rbind (f x) (fun y => rbind (rmapM f xs') (fun ys => Ok (y :: ys)))
  end.

Fixpoint rfoldM {A B} (f : A -> B -> result A) (xs : list B) (a : A) : result A :=
  match xs with
  | [] => Ok a
  | x :: xs' => rbind (f a x) (rfoldM f xs')
  end.

(** ** The configuration (lines 12-26 of the script)

    The script keeps these as module-level constants that every class reads;
    they are collected in a record so that statements can range over
    configurations. *)

Record Config : Type := {
  batch_size : nat;
  image_size : nat;
  patch_size : nat;
  num_channels : nat;
  embed_dim : nat;
  num_heads : nat;
  num_layers : nat;
  mlp_size : nat;
  dropout_size : Q;
  num_classes : nat;
  num_epochs : nat
}.

(** The constants of the script. *)
Definition reference_config : Config := {|
  batch_size := 64;
  image_size := 224;
  patch_size := 16;
  num_channels := 3;
  embed_dim := 768;
  num_heads := 12;
  num_layers := 12;
  mlp_size := 3072;
  dropout_size := (1 # 10)%Q;
  num_classes := 2;
  num_epochs := 7
|}.

(** [num_patches = (image_size // patch_size) ** 2], evaluated when the
    module is loaded. *)
Definition num_patches (cfg : Config) : result nat :=
  if patch_size cfg =? 0 then Raise ZeroDivisionError
  else Ok ((image_size cfg / patch_size cfg) ^ 2).

(** ** Scalars and randomness *)

(** The float operations the network uses.  [of_Q] injects the literals of
    the script ([1e-5], [0.1], sizes); [Rltb] is the [<] of [torch.max]. *)
Class Scalar : Type := {
  scalar : Type;
  of_Q : Q -> scalar;
  Radd : scalar -> scalar -> scalar;
  Rsub : scalar -> scalar -> scalar;
  Rmul : scalar -> scalar -> scalar;
  Rdiv : scalar -> scalar -> scalar;
  Rsqrt : scalar -> scalar;
  Rexp : scalar -> scalar;
  Rerf : scalar -> scalar;
  Rltb : scalar -> scalar -> bool
}.

(** The generator behind [torch.randn], the default initialisers and the
    dropout masks.  [bernoulli q g] draws a keep-bit of probability [q]. *)
Class Rng (SC : Scalar) : Type := {
  gen : Type;
  randn : gen -> scalar * gen;
  bernoulli : Q -> gen -> bool * gen
}.

Section Model.

Context {SC : Scalar} {RNG : Rng SC}.

Definition zero : scalar := of_Q 0%Q.
Definition one : scalar := of_Q 1%Q.
Definition of_nat (n : nat) : scalar := of_Q (inject_Z (Z.of_nat n)).

(** *** The state-and-exception monad of a forward pass *)

Definition M (A : Type) : Type := gen -> result (A * gen).

Definition ret {A} (a : A) : M A := fun g => Ok (a, g).

Definition bind {A B} (m : M A) (k : A -> M B) : M B :=
  fun g => match m g with
           | Ok (a, g') => k a g'
           | Raise e => Raise e
           end.

Definition lift {A} (r : result A) : M A :=
  fun g => match r with
           | Ok a => Ok (a, g)
           | Raise e => Raise e
           end.

Definition draw {A} (f : gen -> A * gen) : M A := fun g => Ok (f g).

Fixpoint mapM {A B} (f : A -> M B) (xs : list A) : M (list B) :=
  match xs with
  | [] => ret []
  | x :: xs' => bind (f x) (fun y => bind (mapM f xs') (fun ys => ret (y :: ys)))
  end.

Fixpoint foldM {A B} (f : A -> B -> M A) (xs : list B) (a : A) : M A :=
  match xs with
  | [] => ret a
  | x :: xs' => bind (f a x) (foldM f xs')
  end.

(** *** Tensors *)

Definition vec : Type := list scalar.
Definition mat : Type := list vec.
Definition tensor3 : Type := list mat.
Definition tensor4 : Type := list tensor3.

Definition shape1 (n : nat) (v : vec) : Prop := length v = n.
Definition shape2 (r c : nat) (m : mat) : Prop :=
  length m = r /\ Forall (shape1 c) m.
Definition shape3 (a r c : nat) (t : tensor3) : Prop :=
  length t = a /\ Forall (shape2 r c) t.
Definition shape4 (b a r c : nat) (t : tensor4) : Prop :=
  length t = b /\ Forall (shape3 a r c) t.

Definition vsum (v : vec) : scalar := fold_right Radd zero v.

Definition dot (u v : vec) : scalar :=
  vsum (map (fun uv => Rmul (fst uv) (snd uv)) (combine u v)).

(** Broadcasting of one dimension: equal sizes, or one of them is 1. *)
Definition bdim (n m : nat) : option nat :=
  if n =? m then Some n
  else if n =? 1 then Some m
  else if m =? 1 then Some n
  else None.

Definition pick {A} (xs : list A) (i : nat) (d : A) : A :=
  nth (if length xs =? 1 then 0 else i) xs d.

Definition broadcast2 {A B C} (f : A -> B -> result C) (dA : A) (dB : B)
    (xs : list A) (ys : list B) : result (list C) :=
  match bdim (length xs) (length ys) with
  | None => Raise RuntimeError
  | Some n => rmapM (fun i => f (pick xs i dA) (pick ys i dB)) (seq 0 n)
  end.

(** [a + b] on tensors of rank 1, 2 and 3. *)
Definition badd1 : vec -> vec -> result vec :=
  broadcast2 (fun a b => Ok (Radd a b)) zero zero.
Definition badd2 : mat -> mat -> result mat := broadcast2 badd1 [] [].
Definition badd3 : tensor3 -> tensor3 -> result tensor3 := broadcast2 badd2 [] [].

(** Element-wise [a + b] of two sequences of the same shape (residual
    connections); the operands are outputs of shape-preserving blocks. *)
Definition vadd (u v : vec) : vec :=
  map (fun uv => Radd (fst uv) (snd uv)) (combine u v).
Definition madd (x y : mat) : mat :=
  map (fun uv => vadd (fst uv) (snd uv)) (combine x y).

(** *** [nn.Dropout] *)

Definition drop_scalar (p : Q) (x : scalar) : M scalar :=
  bind (draw (bernoulli (1 - p)%Q))
       (fun keep => ret (if keep : bool then Rdiv x (of_Q (1 - p)%Q) else zero)).

(** [F.dropout]: the identity unless the module is in training mode and
    [p] is not 0; [each] walks the elements of the tensor. *)
Definition Dropout {T} (each : (scalar -> M scalar) -> T -> M T)
    (training : bool) (p : Q) (x : T) : M T :=
  if negb training || Qeq_bool p 0%Q then ret x
  else if Qeq_bool p 1%Q then each (fun _ => ret zero) x
  else each (drop_scalar p) x.

Definition each1 (f : scalar -> M scalar) : vec -> M vec := mapM f.
Definition each2 (f : scalar -> M scalar) : mat -> M mat := mapM (each1 f).
Definition each3 (f : scalar -> M scalar) : tensor3 -> M tensor3 := mapM (each2 f).

(** *** [nn.Linear]: [y = x W^T + b], weight of shape [out][in] *)

Record Linear : Type := {
  lin_in_features : nat;
  lin_weight : mat;
  lin_bias : vec
}.

Definition linear (l : Linear) (x : vec) : vec :=
  map (fun wb => Radd (dot (fst wb) x) (snd wb))
      (combine (lin_weight l) (lin_bias l)).

Definition Linear_forward (l : Linear) (x : vec) : result vec :=
  if length x =? lin_in_features l then Ok (linear l x)
  else Raise RuntimeError.

(** *** [nn.LayerNorm] over the last dimension *)

Record LayerNorm : Type := {
  ln_weight : vec;
  ln_bias : vec;
  ln_eps : Q
}.

Definition mean (v : vec) : scalar := Rdiv (vsum v) (of_nat (length v)).

Definition layer_norm (n : LayerNorm) (x : vec) : vec :=
  let mu := mean x in
  let d := map (fun a => Rsub a mu) x in
  let var := mean (map (fun a => Rmul a a) d) in
  let sd := Rsqrt (Radd var (of_Q (ln_eps n))) in
  map (fun t => Radd (Rmul (Rdiv (fst t) sd) (fst (snd t))) (snd (snd t)))
      (combine d (combine (ln_weight n) (ln_bias n))).

Definition LayerNorm_forward (n : LayerNorm) (x : vec) : result vec :=
  if length x =? length (ln_weight n) then Ok (layer_norm n x)
  else Raise RuntimeError.

(** *** Activations *)

Inductive activation : Type := Relu | Gelu.

Definition relu (x : scalar) : scalar := if Rltb x zero then zero else x.

(** [F.gelu]: [x * 0.5 * (1 + erf (x / sqrt 2))]. *)
Definition gelu (x : scalar) : scalar :=
  Rmul (Rmul x (of_Q (1 # 2)%Q))
       (Radd one (Rerf (Rdiv x (Rsqrt (of_Q 2%Q))))).

Definition activate (a : activation) : scalar -> scalar :=
  match a with Relu => relu | Gelu => gelu end.

(** *** [nn.MultiheadAttention] (self-attention, [batch_first]) *)

Record MultiheadAttention : Type := {
  mha_embed_dim : nat;
  mha_num_heads : nat;
  mha_dropout : Q;
  in_proj_weight : mat;      (* [3 * embed_dim][embed_dim] *)
  in_proj_bias : vec;        (* [3 * embed_dim] *)
  out_proj : Linear
}.

Definition head_dim (a : MultiheadAttention) : nat :=
  mha_embed_dim a / mha_num_heads a.

Record qkv : Type := { q_of : vec; k_of : vec; v_of : vec }.

(** The packed input projection followed by [chunk(3)]. *)
Definition in_proj (a : MultiheadAttention) (x : vec) : result qkv :=
  let E := mha_embed_dim a in
  rbind (Linear_forward {| lin_in_features := E;
                           lin_weight := in_proj_weight a;
                           lin_bias := in_proj_bias a |} x)
        (fun y => Ok {| q_of := firstn E y;
                        k_of := firstn E (skipn E y);
                        v_of := skipn (2 * E) y |}).

Definition head_slice (dh h : nat) (v : vec) : vec :=
  firstn dh (skipn (h * dh) v).

Definition softmax (s : vec) : vec :=
  let e := map Rexp s in
  let z := vsum e in
  map (fun x => Rdiv x z) e.

(** [sum_j w_j * v_j], a vector of [dh] components. *)
Definition weighted_sum (dh : nat) (w : vec) (vs : list vec) : vec :=
  map (fun c => vsum (map (fun wv => Rmul (fst wv) (nth c (snd wv) zero))
                          (combine w vs)))
      (seq 0 dh).

(** One head, one query: [softmax (q K^T / sqrt dh) V], with the dropout of
    the attention weights. *)
Definition attend (training : bool) (p : Q) (dh : nat)
    (q : vec) (ks vs : list vec) : M vec :=
  let scores := map (fun k => Rdiv (dot q k) (Rsqrt (of_nat dh))) ks in
  bind (Dropout each1 training p (softmax scores))
       (fun w => ret (weighted_sum dh w vs)).

(** [msa(query=x, key=x, value=x, need_weights=False)] on one sequence:
    only the attended values are returned. *)
Definition attention_seq (training : bool) (a : MultiheadAttention) (x : mat)
    : M mat :=
  let dh := head_dim a in
  bind (lift (rmapM (in_proj a) x)) (fun ps =>
  mapM (fun t =>
          bind (mapM (fun h =>
                        attend training (mha_dropout a) dh
                          (head_slice dh h (q_of t))
                          (map (fun u => head_slice dh h (k_of u)) ps)
                          (map (fun u => head_slice dh h (v_of u)) ps))
                     (seq 0 (mha_num_heads a)))
               (fun heads => lift (Linear_forward (out_proj a) (concat heads))))
       ps).

Definition MultiheadAttention_forward (training : bool)
    (a : MultiheadAttention) (x : tensor3) : M tensor3 :=
  mapM (attention_seq training a) x.

(** *** [nn.TransformerEncoderLayer] *)

Record TransformerEncoderLayer : Type := {
  self_attn : MultiheadAttention;
  linear1 : Linear;
  tel_dropout : Q;
  linear2 : Linear;
  norm_first : bool;
  norm1 : LayerNorm;
  norm2 : LayerNorm;
  tel_activation : activation
}.

Definition norm_seq (n : LayerNorm) (x : mat) : M mat :=
  lift (rmapM (LayerNorm_forward n) x).

(** [_sa_block]: self-attention, then [dropout1]. *)
Definition sa_block (training : bool) (l : TransformerEncoderLayer) (x : mat)
    : M mat :=
  bind (attention_seq training (self_attn l) x)
       (Dropout each2 training (tel_dropout l)).

(** [_ff_block]: [linear2 (dropout (activation (linear1 x)))], then
    [dropout2]. *)
Definition feed_forward (training : bool) (l : TransformerEncoderLayer)
    (x : mat) : M mat :=
  bind (lift (rmapM (Linear_forward (linear1 l)) x)) (fun h =>
  bind (Dropout each2 training (tel_dropout l)
                (map (map (activate (tel_activation l))) h)) (fun h' =>
  lift (rmapM (Linear_forward (linear2 l)) h'))).

Definition ff_block (training : bool) (l : TransformerEncoderLayer) (x : mat)
    : M mat :=
  bind (feed_forward training l x)
       (Dropout each2 training (tel_dropout l)).

Definition layer_seq (training : bool) (l : TransformerEncoderLayer) (x : mat)
    : M mat :=
  if norm_first l then
    bind (norm_seq (norm1 l) x) (fun n1 =>
    bind (sa_block training l n1) (fun a =>
    let x1 := madd x a in
    bind (norm_seq (norm2 l) x1) (fun n2 =>
    bind (ff_block training l n2) (fun f =>
    ret (madd x1 f)))))
  else
    bind (sa_block training l x) (fun a =>
    bind (norm_seq (norm1 l) (madd x a)) (fun x1 =>
    bind (ff_block training l x1) (fun f =>
    norm_seq (norm2 l) (madd x1 f)))).

Definition TransformerEncoderLayer_forward (training : bool)
    (l : TransformerEncoderLayer) (x : tensor3) : M tensor3 :=
  mapM (layer_seq training l) x.

(** *** [nn.Conv2d] without padding, [nn.Flatten] and [permute] *)

Record Conv2d : Type := {
  conv_in_channels : nat;
  conv_kernel_size : nat;
  conv_stride : nat;
  conv_weight : list tensor3;   (* [out][in][k][k] *)
  conv_bias : vec               (* [out] *)
}.

(** The product of one filter with the [k]x[k] window of the image whose
    upper left corner is at row [r], column [c]. *)
Definition window_dot (k r c : nat) (w img : tensor3) : scalar :=
  vsum (map (fun wc =>
               vsum (map (fun rows =>
                            dot (fst rows) (firstn k (skipn c (snd rows))))
                         (combine (fst wc) (firstn k (skipn r (snd wc))))))
            (combine w img)).

Definition conv_out (size k stride : nat) : nat := (size - k) / stride + 1.

(** One image [C][H][W] to [out][H'][W']. *)
Definition conv2d_image (cv : Conv2d) (img : tensor3) : result tensor3 :=
  let k := conv_kernel_size cv in
  let s := conv_stride cv in
  let H := length (hd [] img) in
  let W := length (hd [] (hd [] img)) in
  if (length img =? conv_in_channels cv) && (0 <? k) && (0 <? s)
     && (k <=? H) && (k <=? W)
  then Ok (map (fun wb =>
                  map (fun i =>
                         map (fun j =>
                                Radd (window_dot k (i * s) (j * s) (fst wb) img)
                                     (snd wb))
                             (seq 0 (conv_out W k s)))
                      (seq 0 (conv_out H k s)))
               (combine (conv_weight cv) (conv_bias cv)))
  else Raise RuntimeError.

Definition Conv2d_forward (cv : Conv2d) (x : tensor4) : result tensor4 :=
  rmapM (conv2d_image cv) x.

(** [nn.Flatten(start_dim=2, end_dim=3)] on [B][D][H'][W']. *)
Definition Flatten_2_3 (x : tensor4) : tensor3 :=
  map (map (@concat scalar)) x.

Definition transpose (m : mat) : mat :=
  map (fun j => map (fun row => nth j row zero) m)
      (seq 0 (length (hd [] m))).

(** [permute(0, 2, 1)]. *)
Definition permute_0_2_1 (x : tensor3) : tensor3 := map transpose x.

(** *** Heap of encoder layers

    [nn.TransformerEncoder] receives a layer object and stores copies of
    it, so encoder layers are the one kind of module the script passes by
    reference; they live in a heap and are named by their address. *)

Definition addr : Type := nat.
Definition heap : Type := list TransformerEncoderLayer.

Definition deref (h : heap) (a : addr) : result TransformerEncoderLayer :=
  match nth_error h a with
  | Some l => Ok l
  | None => Raise RuntimeError
  end.

Definition alloc (h : heap) (l : TransformerEncoderLayer) : addr * heap :=
  (length h, h ++ [l]).

(** [copy.deepcopy] of a layer: a new object with equal parameter values. *)
Definition deepcopy (h : heap) (a : addr) : result (addr * heap) :=
  rbind (deref h a) (fun l => Ok (alloc h l)).

(** [_get_clones(module, N)]: [ModuleList([deepcopy(module) for i in range(N)])]. *)
Fixpoint get_clones (h : heap) (a : addr) (n : nat) : result (list addr * heap) :=
  match n with
  | 0 => Ok ([], h)
  | S n' =>
      rbind (deepcopy h a) (fun ch =>
      rbind (get_clones (snd ch) a n') (fun r =>
      Ok (fst ch :: fst r, snd r)))
  end.

(** [nn.TransformerEncoder]: the [layers] list and the optional final norm. *)
Record nnTransformerEncoder : Type := {
  layers : list addr;
  enc_norm : option LayerNorm
}.

Definition nnTransformerEncoder_forward (training : bool) (h : heap)
    (e : nnTransformerEncoder) (x : tensor3) : M tensor3 :=
  bind (foldM (fun out a =>
                 bind (lift (deref h a))
                      (fun l => TransformerEncoderLayer_forward training l out))
              (layers e) x)
       (fun out => match enc_norm e with
                   | None => ret out
                   | Some n => lift (rmapM (rmapM (LayerNorm_forward n)) out)
                   end).

(** *** The classes of the script *)

(** [PatchEmbedding] (lines 58-82): [main = Sequential(Conv2d, Flatten)]. *)
Record PatchEmbedding : Type := {
  pe_conv : Conv2d
}.

Definition PatchEmbedding_forward (pe : PatchEmbedding) (input : tensor4)
    : result tensor3 :=
  rbind (Conv2d_forward (pe_conv pe) input)
        (fun y => Ok (permute_0_2_1 (Flatten_2_3 y))).

(** [TransformerEncoder] (lines 86-109). *)
Record TransformerEncoder : Type := {
  transformer_encoder_layer : addr;
  full_transformer_encoder : nnTransformerEncoder
}.

Definition TransformerEncoder_forward (training : bool) (h : heap)
    (te : TransformerEncoder) (input : tensor3) : M tensor3 :=
  nnTransformerEncoder_forward training h (full_transformer_encoder te) input.

(** [MLPHead] (lines 113-127): [main = Sequential(LayerNorm, Linear)]. *)
Record MLPHead : Type := {
  head_norm : LayerNorm;
  head_linear : Linear
}.

Definition MLPHead_forward (m : MLPHead) (input : mat) : result mat :=
  rmapM (fun x => rbind (LayerNorm_forward (head_norm m) x)
                        (Linear_forward (head_linear m)))
        input.

(** [MultiheadSelfAttention] (lines 131-156). *)
Record MultiheadSelfAttention : Type := {
  msa_norm : LayerNorm;
  msa : MultiheadAttention
}.

Definition MultiheadSelfAttention_forward (training : bool)
    (m : MultiheadSelfAttention) (input : tensor3) : M tensor3 :=
  bind (lift (rmapM (rmapM (LayerNorm_forward (msa_norm m))) input))
       (fun input' => MultiheadAttention_forward training (msa m) input').

(** [ViT] (lines 159-181). *)
Record ViT : Type := {
  patch_embedding : PatchEmbedding;
  prepend_embed_token : tensor3;     (* [1][1][embed_dim] *)
  position_embed_token : tensor3;    (* [1][num_patches + 1][embed_dim] *)
  embedding_dropout : Q;
  transformer_encoder : TransformerEncoder;
  mlp_head : MLPHead
}.

(** [t.expand(B, -1, -1)]. *)
Definition expand_batch (B : nat) (t : tensor3) : result tensor3 :=
  if length t =? 1 then Ok (repeat (hd [] t) B)
  else if length t =? B then Ok t
  else Raise RuntimeError.

(** [torch.cat((a, b), dim=1)]: the other two dimensions must agree. *)
Definition cat_dim1 (a b : tensor3) : result tensor3 :=
  if (length a =? length b)
     && (length (hd [] (hd [] a)) =? length (hd [] (hd [] b)))
  then Ok (map (fun ab => fst ab ++ snd ab) (combine a b))
  else Raise RuntimeError.

(** [x[:, 0]]. *)
Definition select_0 (x : tensor3) : result mat :=
  rmapM (fun s => match s with
                  | [] => Raise IndexError
                  | t :: _ => Ok t
                  end) x.

Definition ViT_forward (training : bool) (h : heap) (v : ViT) (input : tensor4)
    : M mat :=
  let current_batch_size := length input in
  bind (lift (expand_batch current_batch_size (prepend_embed_token v)))
       (fun prepend_embed_token_expanded =>
  bind (lift (PatchEmbedding_forward (patch_embedding v) input)) (fun input =>
  bind (lift (cat_dim1 prepend_embed_token_expanded input)) (fun input =>
  bind (lift (badd3 input (position_embed_token v))) (fun input =>
  bind (Dropout each3 training (embedding_dropout v) input) (fun input =>
  bind (TransformerEncoder_forward training h (transformer_encoder v) input)
       (fun input =>
  bind (lift (select_0 input)) (fun cls =>
  lift (MLPHead_forward (mlp_head v) cls)))))))).

(** *** Constructors

    Freshly drawn parameters come from the generator; the distribution of
    an initialiser is not modelled, the constants it writes are. *)

Fixpoint replicateM {A} (n : nat) (m : M A) : M (list A) :=
  match n with
  | 0 => ret []
  | S n' => bind m (fun a => bind (replicateM n' m) (fun l => ret (a :: l)))
  end.

Definition sample_vec (n : nat) : M vec := replicateM n (draw randn).
Definition sample_mat (r c : nat) : M mat := replicateM r (sample_vec c).
Definition sample_tensor3 (a r c : nat) : M tensor3 :=
  replicateM a (sample_mat r c).

Definition Linear_init (in_features out_features : nat) : M Linear :=
  bind (sample_mat out_features in_features) (fun w =>
  bind (sample_vec out_features) (fun b =>
  ret {| lin_in_features := in_features; lin_weight := w; lin_bias := b |})).

Definition LayerNorm_init (normalized_shape : nat) (eps : Q) : LayerNorm :=
  {| ln_weight := repeat one normalized_shape;
     ln_bias := repeat zero normalized_shape;
     ln_eps := eps |}.

(** [nn.Dropout.__init__]: [if p < 0 or p > 1: raise ValueError]. *)
Definition Dropout_init (p : Q) : result Q :=
  if Qle_bool 0 p && Qle_bool p 1 then Ok p else Raise ValueError.

(** [nn.MultiheadAttention.__init__]: rejects non-positive sizes, then
    [assert head_dim * num_heads == embed_dim].  The dropout probability is
    only stored. *)
Definition MultiheadAttention_init (E H : nat) (dropout : Q)
    : M MultiheadAttention :=
  if (E =? 0) || (H =? 0) then lift (Raise ValueError)
  else if negb ((E / H) * H =? E) then lift (Raise AssertionError)
  else
    bind (sample_mat (3 * E) E) (fun w =>
    bind (sample_mat E E) (fun ow =>
    ret {| mha_embed_dim := E;
           mha_num_heads := H;
           mha_dropout := dropout;
           in_proj_weight := w;
           in_proj_bias := repeat zero (3 * E);
           out_proj := {| lin_in_features := E;
                          lin_weight := ow;
                          lin_bias := repeat zero E |} |})).

(** [nn.TransformerEncoderLayer.__init__], in the order of its statements:
    [self_attn], [linear1], [dropout], [linear2], the norms, and
    [dropout1], [dropout2] with the same probability as [dropout]. *)
Definition TransformerEncoderLayer_init (d_model nhead dim_feedforward : nat)
    (dropout : Q) (act : activation) (layer_norm_eps : Q) (nf : bool)
    : M TransformerEncoderLayer :=
  bind (MultiheadAttention_init d_model nhead dropout) (fun attn =>
  bind (Linear_init d_model dim_feedforward) (fun l1 =>
  bind (lift (Dropout_init dropout)) (fun p =>
  bind (Linear_init dim_feedforward d_model) (fun l2 =>
  ret {| self_attn := attn;
         linear1 := l1;
         tel_dropout := p;
         linear2 := l2;
         norm_first := nf;
         norm1 := LayerNorm_init d_model layer_norm_eps;
         norm2 := LayerNorm_init d_model layer_norm_eps;
         tel_activation := act |})))).

Definition Conv2d_init (in_channels out_channels kernel_size stride : nat)
    : M Conv2d :=
  bind (replicateM out_channels
          (sample_tensor3 in_channels kernel_size kernel_size)) (fun w =>
  bind (sample_vec out_channels) (fun b =>
  ret {| conv_in_channels := in_channels;
         conv_kernel_size := kernel_size;
         conv_stride := stride;
         conv_weight := w;
         conv_bias := b |})).

Definition eps_default : Q := (1 # 100000)%Q.

Definition PatchEmbedding_init (cfg : Config) : M PatchEmbedding :=
  bind (Conv2d_init (num_channels cfg) (embed_dim cfg)
                    (patch_size cfg) (patch_size cfg))
       (fun cv => ret {| pe_conv := cv |}).

Definition TransformerEncoder_init (cfg : Config) (h : heap)
    : M (TransformerEncoder * heap) :=
  bind (TransformerEncoderLayer_init (embed_dim cfg) (num_heads cfg)
          (mlp_size cfg) (dropout_size cfg) Gelu eps_default true) (fun l =>
  let ah := alloc h l in
  bind (lift (get_clones (snd ah) (fst ah) (num_layers cfg))) (fun ch =>
  ret ({| transformer_encoder_layer := fst ah;
          full_transformer_encoder :=
            {| layers := fst ch; enc_norm := None |} |},
       snd ch))).

Definition MLPHead_init (cfg : Config) : M MLPHead :=
  bind (Linear_init (embed_dim cfg) (num_classes cfg)) (fun l =>
  ret {| head_norm := LayerNorm_init (embed_dim cfg) eps_default;
         head_linear := l |}).

Definition MultiheadSelfAttention_init (cfg : Config) : M MultiheadSelfAttention :=
  bind (MultiheadAttention_init (embed_dim cfg) (num_heads cfg) 0%Q) (fun a =>
  ret {| msa_norm := LayerNorm_init (embed_dim cfg) eps_default; msa := a |}).

(** [ViT.__init__] (lines 161-170), statement by statement; [np] is the
    module-level [num_patches]. *)
Definition ViT_init (cfg : Config) (np : nat) (h : heap) : M (ViT * heap) :=
  bind (PatchEmbedding_init cfg) (fun pe =>
  bind (sample_tensor3 1 1 (embed_dim cfg)) (fun cls =>
  bind (sample_tensor3 1 (np + 1) (embed_dim cfg)) (fun pos =>
  bind (lift (Dropout_init (dropout_size cfg))) (fun p =>
  bind (TransformerEncoder_init cfg h) (fun teh =>
  bind (MLPHead_init cfg) (fun hd =>
  ret ({| patch_embedding := pe;
          prepend_embed_token := cls;
          position_embed_token := pos;
          embedding_dropout := p;
          transformer_encoder := fst teh;
          mlp_head := hd |},
       snd teh))))))).

(** The constant [num_patches] (line 18) and then [ViT(workers)]
    (line 185): the two statements of the script that decide whether a model
    comes into being.  The data sets and loaders that the module builds in
    between (lines 28-48) read the file system; they are [load_data]
    below. *)
Definition construct (cfg : Config) : M (ViT * heap) :=
  bind (lift (num_patches cfg)) (fun np => ViT_init cfg np []).

(** *** Specification vocabulary *)

(** [m] returns, whatever the generator state, a value satisfying [P]. *)
Definition returns {A} (m : M A) (P : A -> Prop) : Prop :=
  forall g, exists a g', m g = Ok (a, g') /\ P a.

(** [m] raises [e], whatever the generator state. *)
Definition raises {A} (m : M A) (e : error) : Prop :=
  forall g, m g = Raise e.

(** [m] neither reads nor advances the generator. *)
Definition deterministic {A} (m : M A) : Prop :=
  exists r : result A, forall g, m g = lift r g.

(** The sequence [x] with its positions rearranged: position [j] of the
    result holds position [nth j pi] of [x]. *)
Definition permute_seq (pi : list nat) (x : mat) : mat :=
  map (fun i => nth i x []) pi.

(** [MultiheadSelfAttention] on one sequence, as a function: what each
    step computes when no shape check fails and attention dropout is off. *)
Definition project_qkv (a : MultiheadAttention) (x : vec) : qkv :=
  let E := mha_embed_dim a in
  let y := linear {| lin_in_features := E;
                     lin_weight := in_proj_weight a;
                     lin_bias := in_proj_bias a |} x in
  {| q_of := firstn E y;
     k_of := firstn E (skipn E y);
     v_of := skipn (2 * E) y |}.

Definition attend_token (a : MultiheadAttention) (ps : list qkv) (t : qkv)
    : vec :=
  let dh := head_dim a in
  linear (out_proj a)
    (concat
       (map (fun h =>
               weighted_sum dh
                 (softmax
                    (map (fun k => Rdiv (dot (head_slice dh h (q_of t)) k)
                                        (Rsqrt (of_nat dh)))
                         (map (fun u => head_slice dh h (k_of u)) ps)))
                 (map (fun u => head_slice dh h (v_of u)) ps))
            (seq 0 (mha_num_heads a)))).

Definition msa_seq (m : MultiheadSelfAttention) (x : mat) : mat :=
  let ps := map (project_qkv (msa m)) (map (layer_norm (msa_norm m)) x) in
  map (attend_token (msa m) ps) ps.

(** Two calls in a row: the second starts from the generator state the
    first has left. *)
Definition run_twice {A} (m : M A) (g : gen) : result (A * A) :=
  match m g with
  | Ok (y1, g1) => match m g1 with
                   | Ok (y2, _) => Ok (y1, y2)
                   | Raise e => Raise e
                   end
  | Raise e => Raise e
  end.

Definition same_twice {A} (m : M A) : Prop :=
  forall g, match run_twice m g with
            | Ok (y1, y2) => y1 = y2
            | Raise _ => True
            end.

(** Parameter shapes, as the constructors establish them. *)
Definition Linear_ok (in_features out_features : nat) (l : Linear) : Prop :=
  lin_in_features l = in_features
  /\ shape2 out_features in_features (lin_weight l)
  /\ shape1 out_features (lin_bias l).

Definition LayerNorm_ok (n : nat) (ln : LayerNorm) : Prop :=
  shape1 n (ln_weight ln) /\ shape1 n (ln_bias ln).

Definition MultiheadAttention_ok (E H : nat) (a : MultiheadAttention) : Prop :=
  mha_embed_dim a = E
  /\ mha_num_heads a = H
  /\ 0 < H
  /\ (E / H) * H = E
  /\ shape2 (3 * E) E (in_proj_weight a)
  /\ shape1 (3 * E) (in_proj_bias a)
  /\ Linear_ok E E (out_proj a).

Definition TransformerEncoderLayer_ok (E H F : nat)
    (l : TransformerEncoderLayer) : Prop :=
  MultiheadAttention_ok E H (self_attn l)
  /\ Linear_ok E F (linear1 l)
  /\ Linear_ok F E (linear2 l)
  /\ LayerNorm_ok E (norm1 l)
  /\ LayerNorm_ok E (norm2 l).

Definition Conv2d_ok (C D P : nat) (cv : Conv2d) : Prop :=
  conv_in_channels cv = C
  /\ conv_kernel_size cv = P
  /\ conv_stride cv = P
  /\ shape4 D C P P (conv_weight cv)
  /\ shape1 D (conv_bias cv).

Definition TransformerEncoder_ok (cfg : Config) (h : heap)
    (te : TransformerEncoder) : Prop :=
  enc_norm (full_transformer_encoder te) = None
  /\ length (layers (full_transformer_encoder te)) = num_layers cfg
  /\ Forall (fun a => exists l,
               deref h a = Ok l
               /\ TransformerEncoderLayer_ok (embed_dim cfg) (num_heads cfg)
                                             (mlp_size cfg) l)
            (layers (full_transformer_encoder te)).

Definition MultiheadSelfAttention_ok (cfg : Config)
    (m : MultiheadSelfAttention) : Prop :=
  LayerNorm_ok (embed_dim cfg) (msa_norm m)
  /\ MultiheadAttention_ok (embed_dim cfg) (num_heads cfg) (msa m)
  /\ mha_dropout (msa m) = 0%Q.

Definition MLPHead_ok (cfg : Config) (m : MLPHead) : Prop :=
  LayerNorm_ok (embed_dim cfg) (head_norm m)
  /\ Linear_ok (embed_dim cfg) (num_classes cfg) (head_linear m).

Definition ViT_ok (cfg : Config) (np : nat) (h : heap) (v : ViT) : Prop :=
  Conv2d_ok (num_channels cfg) (embed_dim cfg) (patch_size cfg)
            (pe_conv (patch_embedding v))
  /\ shape3 1 1 (embed_dim cfg) (prepend_embed_token v)
  /\ shape3 1 (np + 1) (embed_dim cfg) (position_embed_token v)
  /\ TransformerEncoder_ok cfg h (transformer_encoder v)
  /\ MLPHead_ok cfg (mlp_head v).

(** What [TransformerEncoder.__init__] leaves behind: the layer it built at a
    new address, followed by [num_layers] copies at further new addresses. *)
Definition encoder_built (cfg : Config) (h : heap) (te : TransformerEncoder)
    (h' : heap) : Prop :=
  exists l,
    TransformerEncoderLayer_ok (embed_dim cfg) (num_heads cfg) (mlp_size cfg) l
    /\ norm_first l = true
    /\ tel_activation l = Gelu
    /\ tel_dropout l = dropout_size cfg
    /\ mha_dropout (self_attn l) = dropout_size cfg
    /\ h' = h ++ l :: repeat l (num_layers cfg)
    /\ transformer_encoder_layer te = length h
    /\ layers (full_transformer_encoder te)
       = seq (S (length h)) (num_layers cfg)
    /\ enc_norm (full_transformer_encoder te) = None.






(** The forward pass of [ViT] as the seven stages of the specification,
    each with the shape of its result: for a batch of [B] images giving
    [N] patches each, they lead from [input] and generator state [g] to the
    logits [y] and generator state [g']. *)
Definition forward_stages (cfg : Config) (B N : nat) (training : bool)
    (h : heap) (v : ViT) (input : tensor4) (g : gen) (y : mat) (g' : gen)
    : Prop :=
  let D := embed_dim cfg in
  exists (patches cls_expanded with_cls with_pos dropped encoded : tensor3)
         (cls_out : mat) (g1 : gen),
    PatchEmbedding_forward (patch_embedding v) input = Ok patches
    /\ shape3 B N D patches
    /\ expand_batch B (prepend_embed_token v) = Ok cls_expanded
    /\ cat_dim1 cls_expanded patches = Ok with_cls
    /\ shape3 B (N + 1) D with_cls
    /\ badd3 with_cls (position_embed_token v) = Ok with_pos
    /\ shape3 B (N + 1) D with_pos
    /\ Dropout each3 training (embedding_dropout v) with_pos g = Ok (dropped, g1)
    /\ shape3 B (N + 1) D dropped
    /\ TransformerEncoder_forward training h (transformer_encoder v) dropped g1
       = Ok (encoded, g')
    /\ shape3 B (N + 1) D encoded
    /\ select_0 encoded = Ok cls_out
    /\ shape2 B D cls_out
    /\ MLPHead_forward (mlp_head v) cls_out = Ok y.

(** The parameter update of one layer object, in place. *)
Definition heap_update (h : heap) (a : addr) (l : TransformerEncoderLayer)
    : heap :=
  if a <? length h then firstn a h ++ l :: skipn (S a) h else h.

(** *** The test loop of [main] (lines 224-236) *)

(** One row of [torch.max(outputs, 1)] for a row of numbers: the maximal
    value and the index of its first occurrence.  (On a row that holds a
    not-a-number torch returns that value and its index; the scan below
    passes over it instead, so statements about the predicted class are
    about rows of numbers.) *)
Fixpoint max_from (best : scalar) (besti i : nat) (xs : vec) : scalar * nat :=
  match xs with
  | [] => (best, besti)
  | x :: xs' =>
      if Rltb best x then max_from x i (S i) xs'
      else max_from best besti (S i) xs'
  end.

Definition max_row (row : vec) : result (scalar * nat) :=
  match row with
  | [] => Raise IndexError
  | x :: xs => Ok (max_from x 0 1 xs)
  end.

Definition torch_max_dim1 (outputs : mat) : result (list (scalar * nat)) :=
  rmapM max_row outputs.

(** [(predicted == labels).sum().item()]. *)
Definition eq_sum (predicted : list nat) (labels : list Z) : result nat :=
  rbind (broadcast2 (fun p l => Ok (Z.eqb (Z.of_nat p) l)) 0 0%Z
                    predicted labels)
        (fun bs => Ok (length (filter (fun b : bool => b) bs))).

(** Python's [a / b] on non-negative integers: the quotient as a rational
    in lowest terms.  Python returns the binary64 number nearest to this
    quotient; the rounding is not modelled. *)
Definition true_div (a b : nat) : result Q :=
  if b =? 0 then Raise ZeroDivisionError
  else Ok (Qred (Z.of_nat a # Pos.of_nat b)).

Section Loops.

(** The batches of a data loader: inputs and integer labels. *)
Variable X : Type.
Definition batch : Type := (X * list Z)%type.

(** [visual_transformer(images)] after [visual_transformer.eval()]. *)
Variable visual_transformer : X -> result mat.

Record counters : Type := { correct : nat; total : nat }.

Definition test_batch (st : counters) (b : batch) : result counters :=
  let images := fst b in
  let labels := snd b in
  rbind (visual_transformer images) (fun outputs =>
  rbind (torch_max_dim1 outputs) (fun mx =>
  let predicted := map snd mx in
  let total' := total st + length labels in
  rbind (eq_sum predicted labels) (fun c =>
  Ok {| correct := correct st + c; total := total' |}))).

Definition test_counts (test_dataloader : list batch) : result counters :=
  rfoldM test_batch test_dataloader {| correct := 0; total := 0 |}.

(** The printed test accuracy. *)
Definition test_loop (test_dataloader : list batch) : result Q :=
  rbind (test_counts test_dataloader)
        (fun st => true_div (100 * correct st) (total st)).

(** The accuracy as the specification words it: the examples of the data
    source, the predicted class of each, and the share of correct ones. *)

Definition argmax (logits : vec) : nat :=
  snd (max_from (hd zero logits) 0 1 (tl logits)).

Definition examples (test_dataloader : list batch) : list (vec * Z) :=
  flat_map (fun b => match visual_transformer (fst b) with
                     | Ok outputs => combine outputs (snd b)
                     | Raise _ => []
                     end) test_dataloader.

Definition is_correct (ex : vec * Z) : bool :=
  Z.eqb (Z.of_nat (argmax (fst ex))) (snd ex).

Definition spec_accuracy (exs : list (vec * Z)) : result Q :=
  true_div (100 * length (filter is_correct exs)) (length exs).

(** A batch on which the model answers with one non-empty row of logits
    per label. *)
Definition batch_ok (b : batch) : Prop :=
  exists outputs, visual_transformer (fst b) = Ok outputs
                  /\ length outputs = length (snd b)
                  /\ Forall (fun row => row <> []) outputs.

(** Index [j] holds a maximal entry of [row]. *)
Definition is_max_at (row : vec) (j : nat) : Prop :=
  j < length row
  /\ forall k, k < length row -> Rltb (nth j row zero) (nth k row zero) = false.

(** The entries of [row] are strictly weakly ordered by [Rltb], as floats
    other than not-a-number are. *)
Definition ordered_row (row : vec) : Prop :=
  (forall a, In a row -> Rltb a a = false)
  /\ (forall a b c, In a row -> In b row -> In c row ->
        Rltb a b = true -> Rltb b c = true -> Rltb a c = true)
  /\ (forall a b c, In a row -> In b row -> In c row ->
        Rltb a c = true -> Rltb a b = true \/ Rltb b c = true).

(** *** The training loop of [main] (lines 199-216)

    The model, its gradients, the optimiser state and the generator form an
    abstract training state; the calls of the loop body are its transitions.
    The trace records the calls in order. *)

Variable state : Type.
Variable zero_grad : state -> state.
Variable forward_train : state -> X -> result (mat * state).
Variable criterion : mat -> list Z -> result scalar.
Variable backward : state -> scalar -> state.
Variable optimiser_step : state -> state.




Definition enumerate {A} (l : list A) : list (nat * A) :=
  combine (seq 0 (length l)) l.











End Loops.

(** The forward pass the test loop calls: the model in evaluation mode. *)
Definition eval_forward (h : heap) (v : ViT) (g : gen) (images : tensor4)
    : result mat :=
  match ViT_forward false h v images g with
  | Ok (y, _) => Ok y
  | Raise e => Raise e
  end.

Definition main_test (h : heap) (v : ViT) (g : gen)
    (test_dataloader : list (batch tensor4)) : result Q :=
  test_loop (eval_forward h v g) test_dataloader.

(** A batch as the test loader yields it: [B] images resized to
    [image_size] by [image_size], with [B] labels. *)
Definition loader_batch (cfg : Config) (b : batch tensor4) : Prop :=
  shape4 (length (snd b)) (num_channels cfg) (image_size cfg) (image_size cfg)
         (fst b).

(** *** The data sets and loaders of the module (lines 28-48)

    What the script finds in the file system is an input of the model: for
    a root directory, whether it exists and, if so, its class folders in
    sorted order, each with its valid image files.  An image stands for
    what the transform of lines 33-36 makes of the file. *)

Definition image_folder (I : Type) : Type := option (list (list I)).

(** [dset.ImageFolder(root, transform)] (torchvision 0.10 and later):
    [FileNotFoundError] when the root is missing, holds no class folder, or
    holds a class folder without a valid image; otherwise the samples,
    class by class, each labelled with the index of its class. *)
Definition ImageFolder {I} (root : image_folder I) : result (list (I * Z)) :=
  match root with
  | None => Raise FileNotFoundError
  | Some classes =>
      if (length classes =? 0) || existsb (fun c => length c =? 0) classes
      then Raise FileNotFoundError
      else Ok (concat (map (fun ic => map (fun x => (x, Z.of_nat (fst ic)))
                                          (snd ic))
                           (enumerate classes)))
  end.

(** The batches of a sampler that goes through the data in order, [b]
    samples at a time, the last batch holding what is left. *)
Fixpoint chunks {A} (fuel b : nat) (xs : list A) : list (list A) :=
  match fuel with
  | 0 => []
  | S fuel' =>
      match xs with
      | [] => []
      | _ :: _ => firstn b xs :: chunks fuel' b (skipn b xs)
      end
  end.

(** The default collate function: the inputs stacked, the labels listed. *)
Definition collate {I} (samples : list (I * Z)) : batch (list I) :=
  (map fst samples, map snd samples).

(** [DataLoader(dataset, batch_size=b, shuffle=False)] and the batches it
    yields when iterated: [ValueError] unless [b] is positive. *)
Definition DataLoader {I} (dataset : list (I * Z)) (b : nat)
    : result (list (batch (list I))) :=
  if b =? 0 then Raise ValueError
  else Ok (map collate (chunks (length dataset) b dataset)).

Record file_system (I : Type) : Type := {
  train_dataroot : image_folder I;
  test_dataroot : image_folder I
}.

Record loaded_data (I : Type) : Type := {
  train_dataset : list (I * Z);
  test_dataset : list (I * Z);
  test_dataloader : list (batch (list I))
}.

(** Lines 32-48, statement by statement.  The training loader shuffles, so
    of it only the construction is modelled; the batches it yields in each
    epoch are an input of [train_loop]. *)
Definition load_data {I} (cfg : Config) (fs : file_system I)
    : result (loaded_data I) :=
  rbind (ImageFolder (train_dataroot fs)) (fun train =>
  rbind (ImageFolder (test_dataroot fs)) (fun test =>
  rbind (DataLoader train (batch_size cfg)) (fun _ =>
  rbind (DataLoader test (batch_size cfg)) (fun test_batches =>
  Ok {| train_dataset := train;
        test_dataset := test;
        test_dataloader := test_batches |})))).

(** The module-level statements that can fail (lines 12-48), in order;
    [main] runs only when they have returned. *)
Definition load_module {I} (cfg : Config) (fs : file_system I)
    : result (nat * loaded_data I) :=
  rbind (num_patches cfg) (fun np =>
  rbind (load_data cfg fs) (fun d => Ok (np, d))).

(** A root directory without a single image: missing, or no class folder
    holds one. *)
Definition no_image {I} (root : image_folder I) : Prop :=
  match root with
  | None => True
  | Some classes => concat classes = []
  end.

(** *** Further vocabulary *)



(** A model that answers every input of a batch on its own. *)
Definition per_example {X : Type} (f : X -> vec) (images : list X)
    : result mat :=
  Ok (map f images).

(** The upper left [Hc] by [Wc] corner of every channel of an image. *)
Definition crop (Hc Wc : nat) (img : tensor3) : tensor3 :=
  map (fun ch => map (firstn Wc) (firstn Hc ch)) img.

(** The exception that [num_patches] (line 18) and [ViT(workers)] raise, if
    any: the checks in the order the code reaches them, which are the
    division of line 18, [nn.Dropout] at line 168, and the two checks of
    [nn.MultiheadAttention] inside the encoder layer of line 95. *)
Definition construct_error (cfg : Config) : option error :=
  if patch_size cfg =? 0 then Some ZeroDivisionError
  else if negb (Qle_bool 0 (dropout_size cfg) && Qle_bool (dropout_size cfg) 1)
  then Some ValueError
  else if (embed_dim cfg =? 0) || (num_heads cfg =? 0) then Some ValueError
  else if negb (embed_dim cfg mod num_heads cfg =? 0) then Some AssertionError
  else None.

End Model.

(** ** An executable instance

    Fixed-point numbers with 20 fractional bits, extended with a
    not-a-number value, with crude stand-ins for the transcendental
    functions, and a small linear congruential generator.  The instance
    runs the model on small configurations. *)

Inductive fx : Type :=
| Fx (n : Z)      (* the number [n / 2^20] *)
| NaN.

Definition fx_unit : Z := 2 ^ 20.

Definition fx_of_Q (q : Q) : fx := Fx (Qfloor (q * inject_Z fx_unit)).

Definition fx_op (f : Z -> Z -> Z) (a b : fx) : fx :=
  match a, b with
  | Fx x, Fx y => Fx (f x y)
  | _, _ => NaN
  end.

Definition fx_mul : fx -> fx -> fx := fx_op (fun x y => (x * y) / fx_unit)%Z.

Definition fx_div (a b : fx) : fx :=
  match a, b with
  | Fx x, Fx y => if (y =? 0)%Z then NaN else Fx ((x * fx_unit) / y)%Z
  | _, _ => NaN
  end.

Definition fx_sqrt (a : fx) : fx :=
  match a with
  | Fx x => if (x <? 0)%Z then NaN else Fx (Z.sqrt (x * fx_unit))
  | NaN => NaN
  end.

(** [1 + x + x^2 / 2], the start of the exponential series. *)
Definition fx_exp (a : fx) : fx :=
  match a with
  | Fx x => Fx (fx_unit + x + (x * x) / (2 * fx_unit))%Z
  | NaN => NaN
  end.

(** [x / (1 + |x|)], a sigmoid in place of the error function. *)
Definition fx_erf (a : fx) : fx :=
  match a with
  | Fx x => Fx ((x * fx_unit) / (fx_unit + Z.abs x))%Z
  | NaN => NaN
  end.

Definition fx_ltb (a b : fx) : bool :=
  match a, b with
  | Fx x, Fx y => (x <? y)%Z
  | _, _ => false
  end.

Definition FX : Scalar := {|
  scalar := fx;
  of_Q := fx_of_Q;
  Radd := fx_op Z.add;
  Rsub := fx_op Z.sub;
  Rmul := fx_mul;
  Rdiv := fx_div;
  Rsqrt := fx_sqrt;
  Rexp := fx_exp;
  Rerf := fx_erf;
  Rltb := fx_ltb
|}.

Definition lcg_next (g : nat) : nat := (5 * g + 3) mod 16.

Definition LCG : Rng FX := {|
  gen := nat;
  randn := fun g : nat =>
    (fx_of_Q ((Z.of_nat (g mod 5) - 2) # 2) : @scalar FX, lcg_next g);
  bernoulli := fun (q : Q) (g : nat) =>
    (negb (Qle_bool q (Z.of_nat (g mod 4) # 4)), lcg_next g)
|}.

(** A configuration small enough to run: 2x2 images of three channels,
    four patches, two features, one head, one layer, two classes. *)
Definition tiny_config : Config := {|
  batch_size := 2;
  image_size := 2;
  patch_size := 1;
  num_channels := 3;
  embed_dim := 2;
  num_heads := 1;
  num_layers := 1;
  mlp_size := 2;
  dropout_size := (1 # 2)%Q;
  num_classes := 2;
  num_epochs := 1
|}.

(** Configurations of the same size that differ in the fields the
    constructors look at: patch size, features, heads, layers, dropout. *)
Definition small_config (P E H L : nat) (p : Q) : Config := {|
  batch_size := 2;
  image_size := 2;
  patch_size := P;
  num_channels := 3;
  embed_dim := E;
  num_heads := H;
  num_layers := L;
  mlp_size := 2;
  dropout_size := p;
  num_classes := 2;
  num_epochs := 1
|}.

Definition fx_int (z : Z) : @scalar FX := Fx (z * fx_unit).

(** The model [main] builds for the small configuration, from generator
    state 1. *)
Definition tiny_model : result (@ViT FX * @heap FX * nat) :=
  @construct FX LCG tiny_config 1.

(** The example of the specification: four examples with labels
    [0; 1; 0; 1] whose logits give the predictions [0; 1; 1; 1]. *)
Definition four_logits : @mat FX :=
  [[fx_int 2; fx_int 1]; [fx_int 0; fx_int 3];
   [fx_int (-1); fx_int 1]; [fx_int 1; fx_int 2]].

Definition four_examples : list (batch unit) := [(tt, [0; 1; 0; 1]%Z)].

Definition four_net (_ : unit) : result (@mat FX) := Ok four_logits.




(** A row of logits with its maximum at the indices 1 and 3. *)
Definition tied_row : @vec FX := [fx_int 1; fx_int 4; fx_int 0; fx_int 4].

Definition from_ok {A} (r : result A) (d : A) : A :=
  match r with Ok a => a | Raise _ => d end.

Definition no_ViT : @ViT FX := {|
  patch_embedding :=
    {| pe_conv := {| conv_in_channels := 0; conv_kernel_size := 0;
                     conv_stride := 0; conv_weight := []; conv_bias := [] |} |};
  prepend_embed_token := [];
  position_embed_token := [];
  embedding_dropout := 0%Q;
  transformer_encoder :=
    {| transformer_encoder_layer := 0;
       full_transformer_encoder := {| layers := []; enc_norm := None |} |};
  mlp_head :=
    {| head_norm := {| ln_weight := []; ln_bias := []; ln_eps := 0%Q |};
       head_linear := {| lin_in_features := 0; lin_weight := [];
                         lin_bias := [] |} |}
|}.

(** The outcome of [tiny_model], evaluated. *)
Definition tiny_built : @ViT FX * @heap FX * nat :=
  Eval vm_compute in from_ok tiny_model (no_ViT, [], 0).

Definition tiny_vit : @ViT FX := fst (fst tiny_built).
Definition tiny_heap : @heap FX := snd (fst tiny_built).

Definition tiny_image (a b c d : Z) : @tensor3 FX :=
  [[[fx_int a; fx_int b]; [fx_int c; fx_int d]];
   [[fx_int b; fx_int c]; [fx_int d; fx_int a]];
   [[fx_int d; fx_int a]; [fx_int b; fx_int c]]].

(** A configuration whose images are not a whole number of patches. *)
Definition odd_config : Config := {|
  batch_size := 2;
  image_size := 3;
  patch_size := 2;
  num_channels := 3;
  embed_dim := 2;
  num_heads := 1;
  num_layers := 1;
  mlp_size := 2;
  dropout_size := (1 # 2)%Q;
  num_classes := 2;
  num_epochs := 1
|}.

Definition odd_built : @ViT FX * @heap FX * nat :=
  Eval vm_compute in from_ok (@construct FX LCG odd_config 1) (no_ViT, [], 0).

Definition odd_vit : @ViT FX := fst (fst odd_built).
Definition odd_heap : @heap FX := snd (fst odd_built).

(** One image of 3x3 pixels, for [odd_config]. *)
Definition odd_batch : @tensor4 FX :=
  [[[[fx_int 1; fx_int 2; fx_int 3];
     [fx_int 4; fx_int 5; fx_int 6];
     [fx_int 7; fx_int 8; fx_int 9]];
    [[fx_int 0; fx_int 1; fx_int 0];
     [fx_int 1; fx_int 0; fx_int 1];
     [fx_int 0; fx_int 1; fx_int 0]];
    [[fx_int 2; fx_int 2; fx_int 2];
     [fx_int 1; fx_int 1; fx_int 1];
     [fx_int 0; fx_int 0; fx_int 0]]]].

(** One image of a single pixel: height and width 1, multiples of the
    patch size 1 of [tiny_config], but one patch instead of four. *)
Definition one_pixel : @tensor4 FX :=
  [[[[fx_int 1]]; [[fx_int 2]]; [[fx_int 3]]]].

(** One sequence of three tokens, and the rotation of three positions. *)
Definition three_tokens : @tensor3 FX :=
  [[[fx_int 1; fx_int 2]; [fx_int 0; fx_int (-1)]; [fx_int 3; fx_int 1]]].

Definition rotation : list nat := [2; 0; 1].

Definition tiny_batch : @tensor4 FX :=
  [tiny_image 1 2 3 4; tiny_image 0 1 0 (-1)].

(** A file system with two training images and three test images in two
    classes, and one whose test root has class folders but no image. *)
Definition small_data : file_system (@tensor3 FX) := {|
  train_dataroot := Some [[tiny_image 1 2 3 4]; [tiny_image 0 1 0 (-1)]];
  test_dataroot := Some [[tiny_image 1 2 3 4; tiny_image 0 1 0 (-1)];
                         [tiny_image 2 0 1 1]]
|}.

Definition no_test_image : file_system (@tensor3 FX) := {|
  train_dataroot := Some [[tiny_image 1 2 3 4]; [tiny_image 0 1 0 (-1)]];
  test_dataroot := Some [[]; []]
|}.

(** ** Binary64 scalars

    The floating-point numbers of the machine, with their correctly rounded
    addition, subtraction, multiplication, division and square root.  The
    exponential is the start of its series, which is exact at 0, and the
    error function is replaced by a sigmoid, as in the instance above. *)

Definition f64_of_Z (z : Z) : PrimFloat.float :=
  match z with
  | Zneg p => PrimFloat.opp (PrimFloat.of_uint63 (Uint63.of_Z (Zpos p)))
  | _ => PrimFloat.of_uint63 (Uint63.of_Z z)
  end.

Definition f64_of_Q (q : Q) : PrimFloat.float :=
  PrimFloat.div (f64_of_Z (Qnum q)) (f64_of_Z (Zpos (Qden q))).

(** [1 + x + x^2 / 2 + x^3 / 6]. *)
Definition f64_exp (x : PrimFloat.float) : PrimFloat.float :=
  PrimFloat.add (f64_of_Z 1)
    (PrimFloat.add x
       (PrimFloat.add (PrimFloat.div (PrimFloat.mul x x) (f64_of_Z 2))
          (PrimFloat.div (PrimFloat.mul x (PrimFloat.mul x x)) (f64_of_Z 6)))).

Definition f64_erf (x : PrimFloat.float) : PrimFloat.float :=
  PrimFloat.div x (PrimFloat.add (f64_of_Z 1) (PrimFloat.abs x)).

Definition F64 : Scalar := {|
  scalar := PrimFloat.float;
  of_Q := f64_of_Q;
  Radd := PrimFloat.add;
  Rsub := PrimFloat.sub;
  Rmul := PrimFloat.mul;
  Rdiv := PrimFloat.div;
  Rsqrt := PrimFloat.sqrt;
  Rexp := f64_exp;
  Rerf := f64_erf;
  Rltb := PrimFloat.ltb
|}.

Definition F64_LCG : Rng F64 := {|
  gen := nat;
  randn := fun g : nat =>
    (f64_of_Q ((Z.of_nat (g mod 5) - 2) # 2) : @scalar F64, lcg_next g);
  bernoulli := fun (q : Q) (g : nat) =>
    (negb (Qle_bool q (Z.of_nat (g mod 4) # 4)), lcg_next g)
|}.

Definition f64_int (z : Z) : @scalar F64 := f64_of_Z z.

(** A [MultiheadSelfAttention] block of two features and one head whose
    query and key projections are zero, so that every position attends to
    all positions with the same weight, and whose value and output
    projections are the identity. *)
Definition uniform_attention : @MultiheadSelfAttention F64 := {|
  msa_norm := @LayerNorm_init F64 2 eps_default;
  msa := {| mha_embed_dim := 2;
            mha_num_heads := 1;
            mha_dropout := 0%Q;
            in_proj_weight :=
              [[f64_int 0; f64_int 0]; [f64_int 0; f64_int 0];
               [f64_int 0; f64_int 0]; [f64_int 0; f64_int 0];
               [f64_int 1; f64_int 0]; [f64_int 0; f64_int 1]];
            in_proj_bias := repeat (f64_int 0) 6;
            out_proj := {| lin_in_features := 2;
                           lin_weight := [[f64_int 1; f64_int 0];
                                          [f64_int 0; f64_int 1]];
                           lin_bias := [f64_int 0; f64_int 0] |} |}
|}.

(** The three tokens of [three_tokens] as binary64 numbers. *)
Definition float_tokens : @tensor3 F64 :=
  [[[f64_int 1; f64_int 2]; [f64_int 0; f64_int (-1)];
    [f64_int 3; f64_int 1]]].

(** What the block returns on the tokens, and on the tokens rotated. *)
Definition float_out : @tensor3 F64 * nat :=
  Eval vm_compute in
    from_ok (@MultiheadSelfAttention_forward F64 F64_LCG true uniform_attention
               float_tokens 0) ([], 0).

Definition float_out_rotated : @tensor3 F64 * nat :=
  Eval vm_compute in
    from_ok (@MultiheadSelfAttention_forward F64 F64_LCG true uniform_attention
               (map (permute_seq rotation) float_tokens) 0) ([], 0).

Definition first_entry (t : @tensor3 F64) : @scalar F64 :=
  hd (f64_int 0) (hd [] (hd [] t)).

(** * Properties *)

(** ** The result monad *)

Lemma rmapM_ext {A B} (f g : A -> result B) (l : list A) :
  (forall x, In x l -> f x = g x) -> rmapM f l = rmapM g l.
Proof.
  induction l as [|x l IH]; intros H; simpl; [reflexivity|].
  rewrite (H x (or_introl eq_refl)), IH; [reflexivity|].
  intros y Hy. apply H. now right.
Qed.

Lemma rmapM_map {A B C} (f : B -> result C) (g : A -> B) (l : list A) :
  rmapM f (map g l) = rmapM (fun x => f (g x)) l.
Proof.
  induction l as [|x l IH]; simpl; [reflexivity|].
  now rewrite IH.
Qed.

Lemma rmapM_Ok {A B} (g : A -> B) (l : list A) :
  rmapM (fun x => Ok (g x)) l = Ok (map g l).
Proof.
  induction l as [|x l IH]; simpl; [reflexivity|].
  now rewrite IH.
Qed.

Lemma rmapM_Ok_on {A B} (f : A -> result B) (g : A -> B) (l : list A) :
  (forall x, In x l -> f x = Ok (g x)) -> rmapM f l = Ok (map g l).
Proof.
  intros H. rewrite <- rmapM_Ok. now apply rmapM_ext.
Qed.

Lemma rmapM_length {A B} (f : A -> result B) (l : list A) (r : list B) :
  rmapM f l = Ok r -> length r = length l.
Proof.
  revert r. induction l as [|x l IH]; simpl; intros r H.
  - now inversion H.
  - destruct (f x) as [y|]; simpl in H; [|discriminate].
    destruct (rmapM f l) as [ys|]; simpl in H; [|discriminate].
    inversion H; subst. simpl. f_equal. now apply IH.
Qed.

(** ** Broadcasting *)

Lemma bdim_same (n : nat) : bdim n n = Some n.
Proof. unfold bdim. now rewrite Nat.eqb_refl. Qed.

Lemma rmapM_nth_combine {A B C} (f : A -> B -> result C) (dA : A) (dB : B)
    (xs : list A) (ys : list B) :
  length xs = length ys ->
  rmapM (fun i => f (nth i xs dA) (nth i ys dB)) (seq 0 (length xs))
  = rmapM (fun ab => f (fst ab) (snd ab)) (combine xs ys).
Proof.
  revert ys. induction xs as [|x xs IH]; intros [|y ys] H; simpl in *;
    try discriminate; [reflexivity|].
  rewrite <- seq_shift, rmapM_map. simpl.
  now rewrite IH by lia.
Qed.

Lemma broadcast2_same {A B C} (f : A -> B -> result C) (dA : A) (dB : B)
    (xs : list A) (ys : list B) :
  length xs = length ys ->
  broadcast2 f dA dB xs ys
  = rmapM (fun ab => f (fst ab) (snd ab)) (combine xs ys).
Proof.
  intros H. unfold broadcast2. rewrite <- H, bdim_same.
  rewrite <- (rmapM_nth_combine f dA dB xs ys H).
  apply rmapM_ext. intros i Hi. apply in_seq in Hi. unfold pick.
  rewrite <- H.
  destruct (length xs =? 1) eqn:E; [|reflexivity].
  apply Nat.eqb_eq in E. replace i with 0 by lia. reflexivity.
Qed.

(** ** The test loop *)

Section TestLoop.

Context {SC : Scalar}.
Variable X : Type.
Variable visual_transformer : X -> result mat.

Lemma max_row_argmax (row : vec) :
  row <> [] -> max_row row = Ok (max_from (hd zero row) 0 1 (tl row)).
Proof. destruct row; [congruence | reflexivity]. Qed.

Lemma eq_sum_same (predicted : list nat) (labels : list Z) :
  length predicted = length labels ->
  eq_sum predicted labels
  = Ok (length (filter (fun pl => Z.eqb (Z.of_nat (fst pl)) (snd pl))
                       (combine predicted labels))).
Proof.
  intros H. unfold eq_sum. rewrite broadcast2_same by exact H.
  rewrite rmapM_Ok. simpl. f_equal.
  induction (combine predicted labels) as [|[p l] c IH]; simpl; [reflexivity|].
  destruct (Z.eqb (Z.of_nat p) l); simpl; now rewrite IH.
Qed.

Lemma filter_combine_map {A B C} (g : A -> B) (t : B * C -> bool)
    (xs : list A) (ys : list C) :
  length (filter t (combine (map g xs) ys))
  = length (filter (fun xy => t (g (fst xy), snd xy)) (combine xs ys)).
Proof.
  revert ys. induction xs as [|x xs IH]; intros [|y ys]; simpl; try reflexivity.
  destruct (t (g x, y)); simpl; now rewrite IH.
Qed.

Lemma test_batch_ok (st : counters) (b : batch X) (outputs : mat) :
  visual_transformer (fst b) = Ok outputs ->
  length outputs = length (snd b) ->
  Forall (fun row => row <> []) outputs ->
  test_batch visual_transformer st b
  = Ok {| correct := correct st
                     + length (filter is_correct (combine outputs (snd b)));
          total := total st + length (combine outputs (snd b)) |}.
Proof.
  intros Hv Hl Hne. unfold test_batch. rewrite Hv. simpl.
  unfold torch_max_dim1.
  rewrite (rmapM_Ok_on max_row (fun row => max_from (hd zero row) 0 1 (tl row))).
  2:{ intros row Hrow. apply max_row_argmax.
      rewrite Forall_forall in Hne. now apply Hne. }
  simpl. rewrite map_map.
  rewrite eq_sum_same by (now rewrite length_map).
  simpl. rewrite length_combine, Hl, Nat.min_id.
  do 2 f_equal.
  rewrite filter_combine_map. reflexivity.
Qed.

Lemma test_counts_from (loader : list (batch X)) (st : counters) :
  Forall (batch_ok visual_transformer) loader ->
  rfoldM (test_batch visual_transformer) loader st
  = Ok {| correct := correct st + length (filter is_correct (examples visual_transformer loader));
          total := total st + length (examples visual_transformer loader) |}.
Proof.
  revert st. induction loader as [|b loader IH]; intros st H; simpl.
  - rewrite !Nat.add_0_r. now destruct st.
  - inversion H as [|? ? [outputs (Hv & Hl & Hne)] Hrest]; subst.
    rewrite (test_batch_ok st b Hv Hl Hne). simpl.
    rewrite IH by assumption. simpl.
    unfold examples. simpl. rewrite Hv.
    rewrite filter_app, !length_app, !Nat.add_assoc. reflexivity.
Qed.

(** C5: on every data source whose batches the model answers with one row
    of logits per label, the test loop reports [100 * correct / total],
    where [correct] counts the examples whose arg-max equals the label and
    [total] counts all examples (Python's division, which raises on an
    empty source). *)
Theorem test_loop_accuracy (test_dataloader : list (batch X)) :
  Forall (batch_ok visual_transformer) test_dataloader ->
  test_loop visual_transformer test_dataloader
  = spec_accuracy (examples visual_transformer test_dataloader).
Proof.
  intros H. unfold test_loop, test_counts, spec_accuracy.
  rewrite test_counts_from by assumption. reflexivity.
Qed.

(** The scan of [torch.max] keeps the first maximal entry. *)
Lemma max_from_first (row : vec) :
  ordered_row row ->
  forall xs pre best besti,
    row = pre ++ xs ->
    besti < length pre ->
    nth besti row zero = best ->
    (forall k, k < length pre -> Rltb best (nth k row zero) = false) ->
    (forall k, k < besti -> Rltb (nth k row zero) best = true) ->
    let r := max_from best besti (length pre) xs in
    snd r < length row
    /\ nth (snd r) row zero = fst r
    /\ (forall k, k < length row -> Rltb (fst r) (nth k row zero) = false)
    /\ (forall k, k < snd r -> Rltb (nth k row zero) (fst r) = true).
Proof.
  intros (Hirr & Htr & Hneg).
  assert (Hin : forall k, k < length row -> In (nth k row zero) row)
    by (intros; now apply nth_In).
  induction xs as [|x xs IH]; intros pre best besti Hrow Hb Hnth Hmax Hlt; simpl.
  - rewrite app_nil_r in Hrow. subst pre. repeat split; auto.
  - assert (Hlen : length row = length pre + S (length xs))
      by (rewrite Hrow, length_app; reflexivity).
    assert (Hx : nth (length pre) row zero = x)
      by (rewrite Hrow, app_nth2, Nat.sub_diag by lia; reflexivity).
    assert (Hrow' : row = (pre ++ [x]) ++ xs)
      by (rewrite <- app_assoc; exact Hrow).
    assert (Hl' : length (pre ++ [x]) = S (length pre))
      by (rewrite length_app; simpl; lia).
    assert (Hbin : In best row) by (rewrite <- Hnth; apply Hin; lia).
    assert (Hxin : In x row) by (rewrite <- Hx; apply Hin; lia).
    destruct (Rltb best x) eqn:E.
    + rewrite <- Hl'. apply IH; auto.
      * lia.
      * intros k Hk. rewrite Hl' in Hk.
        destruct (Nat.eq_dec k (length pre)) as [->|Hne].
        -- rewrite Hx. now apply Hirr.
        -- destruct (Rltb x (nth k row zero)) eqn:E2; [|reflexivity].
           rewrite <- (Hmax k) by lia. symmetry.
           apply (Htr best x (nth k row zero)); auto. apply Hin. lia.
      * intros k Hk.
        destruct (Hneg best (nth k row zero) x) as [H1|H1]; auto.
        -- apply Hin. lia.
        -- rewrite Hmax in H1 by lia. discriminate.
    + rewrite <- Hl'. apply IH; auto.
      * lia.
      * intros k Hk. rewrite Hl' in Hk.
        destruct (Nat.eq_dec k (length pre)) as [->|Hne].
        -- now rewrite Hx.
        -- apply Hmax. lia.
Qed.

Lemma argmax_first (row : vec) :
  ordered_row row -> row <> [] ->
  is_max_at row (argmax row) /\ (forall j, is_max_at row j -> argmax row <= j).
Proof.
  intros Hord Hne. destruct row as [|x xs]; [congruence|].
  pose proof Hord as (Hirr & _).
  destruct (max_from_first Hord xs [x] (best:=x) (besti:=0)) as (H1 & H2 & H3 & H4);
    simpl; auto.
  - intros k Hk. replace k with 0 by lia. apply Hirr. now left.
  - intros k Hk. lia.
  - unfold argmax. simpl hd. simpl tl. simpl length in *.
    split.
    + split; [exact H1|]. intros k Hk. rewrite H2. now apply H3.
    + intros j (Hj & Hmax).
      destruct (Nat.le_gt_cases (snd (max_from x 0 1 xs)) j) as [|Hlt]; [assumption|].
      specialize (H4 j Hlt). rewrite <- H2 in H4.
      rewrite Hmax in H4; [discriminate | exact H1].
Qed.

(** C10: on a row of logits whose entries are ordered, the predicted class
    is the smallest index holding a maximal entry, and an example with that
    row counts as correct exactly when this index equals its label. *)
Theorem prediction_breaks_ties_low (images : X) (row : vec) (label : Z) :
  ordered_row row -> row <> [] ->
  visual_transformer images = Ok [row] ->
  is_max_at row (argmax row)
  /\ (forall j, is_max_at row j -> argmax row <= j)
  /\ test_counts visual_transformer [(images, [label])]
     = Ok {| correct := if Z.eqb (Z.of_nat (argmax row)) label then 1 else 0;
             total := 1 |}.
Proof.
  intros Hord Hne Hv.
  destruct (argmax_first Hord Hne) as [H1 H2].
  repeat split; try apply H1; try exact H2.
  unfold test_counts. simpl.
  rewrite (@test_batch_ok {| correct := 0; total := 0 |} (images, [label]) [row]);
    auto.
  simpl. unfold is_correct. simpl.
  now destruct (Z.eqb (Z.of_nat (argmax row)) label).
Qed.

End TestLoop.

(** ** The data the test loop receives *)

Section DataLoading.

Context {SC : Scalar}.

Lemma ImageFolder_no_image {I} (root : image_folder I) :
  no_image root -> ImageFolder root = Raise FileNotFoundError.
Proof.
  destruct root as [classes|]; [|reflexivity]. cbn [no_image ImageFolder].
  intros H. destruct classes as [|c cs]; [reflexivity|].
  cbn [concat] in H. apply app_eq_nil in H. destruct H as [-> _].
  reflexivity.
Qed.

Lemma ImageFolder_raises {I} (root : image_folder I) (e : error) :
  ImageFolder root = Raise e -> e = FileNotFoundError.
Proof.
  destruct root as [classes|]; cbn [ImageFolder]; [|congruence].
  destruct ((length classes =? 0) || existsb (fun c => length c =? 0) classes);
    congruence.
Qed.

Lemma ImageFolder_not_empty {I} (root : image_folder I) (ds : list (I * Z)) :
  ImageFolder root = Ok ds -> ds <> [].
Proof.
  destruct root as [classes|]; cbn [ImageFolder]; [|discriminate].
  destruct classes as [|c cs]; [discriminate|].
  destruct c as [|x c]; [discriminate|].
  destruct ((length ((x :: c) :: cs) =? 0)
            || existsb (fun c0 => length c0 =? 0) ((x :: c) :: cs));
    [discriminate|].
  intros H. injection H as <-. discriminate.
Qed.

Lemma chunks_concat {A} (b : nat) :
  0 < b ->
  forall (fuel : nat) (xs : list A),
    length xs <= fuel -> concat (chunks fuel b xs) = xs.
Proof.
  intros Hb. induction fuel as [|fuel IH]; intros xs Hl.
  - destruct xs; [reflexivity | simpl in Hl; lia].
  - destruct xs as [|x xs]; [reflexivity|].
    cbn [chunks concat]. rewrite IH; [apply firstn_skipn|].
    rewrite length_skipn. cbn [length] in *. lia.
Qed.

Lemma chunks_not_empty {A} (b : nat) :
  0 < b ->
  forall (fuel : nat) (xs : list A),
    Forall (fun c => c <> []) (chunks fuel b xs).
Proof.
  intros Hb. induction fuel as [|fuel IH]; intros xs; [constructor|].
  destruct xs as [|x xs]; [constructor|]. cbn [chunks].
  constructor; [|apply IH].
  destruct b as [|b]; [lia|]. discriminate.
Qed.

Lemma DataLoader_batches {I} (ds : list (I * Z)) (b : nat)
    (l : list (batch (list I))) :
  DataLoader ds b = Ok l ->
  0 < b
  /\ concat (map fst l) = map fst ds
  /\ concat (map snd l) = map snd ds
  /\ Forall (fun bt => fst bt <> [] /\ length (fst bt) = length (snd bt)) l
  /\ (ds <> [] -> l <> []).
Proof.
  unfold DataLoader. destruct (b =? 0) eqn:B0; [discriminate|].
  apply Nat.eqb_neq in B0. assert (Hb : 0 < b) by lia.
  intros H. injection H as <-.
  pose proof (@chunks_concat _ b Hb (length ds) ds (le_n _)) as Hc.
  split; [exact Hb|]. split; [|split; [|split]].
  - rewrite map_map. cbn [collate fst]. rewrite <- concat_map. now rewrite Hc.
  - rewrite map_map. cbn [collate snd]. rewrite <- concat_map. now rewrite Hc.
  - apply Forall_forall. intros bt Hbt. apply in_map_iff in Hbt.
    destruct Hbt as (c & <- & Hin). cbn [collate fst snd].
    pose proof (@chunks_not_empty _ b Hb (length ds) ds) as Hne.
    rewrite Forall_forall in Hne. split.
    + intros E. apply map_eq_nil in E. now apply (Hne c Hin).
    + now rewrite !length_map.
  - intros Hds E. apply map_eq_nil in E. rewrite E in Hc. cbn in Hc.
    congruence.
Qed.

Lemma length_examples {X} (visual_transformer : X -> result mat)
    (loader : list (batch X)) :
  Forall (batch_ok visual_transformer) loader ->
  length (examples visual_transformer loader)
  = length (concat (map snd loader)).
Proof.
  induction 1 as [|b loader (outputs & Hv & Hl & _) _ IH]; [reflexivity|].
  unfold examples in *. cbn [flat_map map concat].
  rewrite Hv, !length_app, IH, length_combine, Hl. lia.
Qed.

(** [total += labels.size(0)] does not look at what the model returns. *)
Lemma test_batch_total {X} (visual_transformer : X -> result mat)
    (st st' : counters) (b : batch X) :
  test_batch visual_transformer st b = Ok st' ->
  total st' = total st + length (snd b).
Proof.
  unfold test_batch.
  destruct (visual_transformer (fst b)) as [outputs|]; [|discriminate].
  cbn [rbind].
  destruct (torch_max_dim1 outputs) as [mx|]; [|discriminate]. cbn [rbind].
  destruct (eq_sum (map snd mx) (snd b)) as [c|]; [|discriminate].
  cbn [rbind]. intros H. injection H as <-. reflexivity.
Qed.

Lemma test_counts_total {X} (visual_transformer : X -> result mat)
    (loader : list (batch X)) :
  forall st0 st,
    rfoldM (test_batch visual_transformer) loader st0 = Ok st ->
    total st = total st0 + length (concat (map snd loader)).
Proof.
  induction loader as [|b loader IH]; intros st0 st; cbn [rfoldM map concat].
  - intros H. injection H as <-. cbn [length]. lia.
  - destruct (test_batch visual_transformer st0 b) as [st1|] eqn:E;
      [|discriminate].
    cbn [rbind]. intros H. rewrite (IH _ _ H), (test_batch_total _ _ _ E).
    rewrite length_app. lia.
Qed.

Lemma load_module_inv {I} (cfg : Config) (fs : file_system I) (np : nat)
    (d : loaded_data I) :
  load_module cfg fs = Ok (np, d) ->
  ImageFolder (test_dataroot fs) = Ok (test_dataset d)
  /\ DataLoader (test_dataset d) (batch_size cfg) = Ok (test_dataloader d).
Proof.
  unfold load_module, load_data.
  destruct (num_patches cfg) as [n|]; [|discriminate]. cbn [rbind].
  destruct (ImageFolder (train_dataroot fs)) as [tr|]; [|discriminate].
  cbn [rbind].
  destruct (ImageFolder (test_dataroot fs)) as [te|]; [|discriminate].
  cbn [rbind].
  destruct (DataLoader tr (batch_size cfg)) as [trb|]; [|discriminate].
  cbn [rbind].
  destruct (DataLoader te (batch_size cfg)) as [teb|] eqn:E; [|discriminate].
  cbn [rbind]. intros H. injection H as _ <-. cbn. now split.
Qed.

(** C7, as the code has it.  An evaluation data source without a single
    image is detected before the evaluation loop, though not by the script
    and not as a [DataExhaustionError]: [ImageFolder] raises
    [FileNotFoundError] while the module is loaded (line 38), so [main]
    never runs.  When the module has loaded, the test loader yields at
    least one batch and no empty batch; whatever the model, if the loop
    gets through the batches then [total] is the number of test images,
    which is positive, and the division of line 236 yields an accuracy; and
    the loop does get through them if the model answers every batch with
    one row of logits per label. *)
Theorem empty_test_data_is_refused (I : Type) (cfg : Config)
    (fs : file_system I) :
  (no_image (test_dataroot fs) -> 0 < patch_size cfg ->
   load_module cfg fs = Raise FileNotFoundError)
  /\ forall np d,
       load_module cfg fs = Ok (np, d) ->
       test_dataset d <> []
       /\ test_dataloader d <> []
       /\ Forall (fun b => fst b <> [] /\ length (fst b) = length (snd b))
                 (test_dataloader d)
       /\ forall visual_transformer : list I -> result mat,
            (forall st,
               test_counts visual_transformer (test_dataloader d) = Ok st ->
               total st = length (test_dataset d)
               /\ 0 < total st
               /\ exists q,
                    test_loop visual_transformer (test_dataloader d) = Ok q)
            /\ (Forall (batch_ok visual_transformer) (test_dataloader d) ->
                exists st,
                  test_counts visual_transformer (test_dataloader d) = Ok st).
Proof.
  split.
  - intros Hno HP. unfold load_module, num_patches, load_data.
    destruct (patch_size cfg =? 0) eqn:P0; [apply Nat.eqb_eq in P0; lia|].
    cbn [rbind].
    destruct (ImageFolder (train_dataroot fs)) as [tr|e] eqn:Etr.
    + cbn [rbind]. now rewrite (ImageFolder_no_image _ Hno).
    + cbn [rbind]. now rewrite (ImageFolder_raises _ Etr).
  - intros np d Hload. destruct (load_module_inv _ _ Hload) as [Hds Hdl].
    pose proof (ImageFolder_not_empty _ Hds) as Hne.
    destruct (DataLoader_batches _ _ Hdl) as (Hb & Hi & Hl & Hall & Hnil).
    split; [exact Hne|]. split; [now apply Hnil|]. split; [exact Hall|].
    intros vt. split.
    + intros st Hst.
      assert (Htot : total st = length (test_dataset d)).
      { unfold test_counts in Hst. rewrite (test_counts_total _ _ _ Hst).
        cbn [total Nat.add]. rewrite Hl. apply length_map. }
      assert (Hpos : 0 < length (test_dataset d)).
      { destruct (test_dataset d); [congruence | simpl; lia]. }
      split; [exact Htot|]. split; [rewrite Htot; exact Hpos|].
      unfold test_loop. rewrite Hst. cbn [rbind]. unfold true_div.
      rewrite Htot.
      destruct (length (test_dataset d) =? 0) eqn:Z0;
        [apply Nat.eqb_eq in Z0; lia|].
      eexists. reflexivity.
    + intros Hok. unfold test_counts.
      rewrite (test_counts_from _ Hok). eexists. reflexivity.
Qed.

End DataLoading.

(** ** The training loop *)

Section TrainLoop.

Context {SC : Scalar}.
Variable X : Type.
Variable state : Type.
Variable zero_grad : state -> state.
Variable forward_train : state -> X -> result (mat * state).
Variable criterion : mat -> list Z -> result scalar.
Variable backward : state -> scalar -> state.
Variable optimiser_step : state -> state.

Hypothesis forward_returns :
  forall p x, exists o p', forward_train p x = Ok (o, p').
Hypothesis criterion_returns :
  forall o l, exists loss, criterion o l = Ok loss.










End TrainLoop.

(** ** The monad of the forward pass *)

Section Monad.

Context {SC : Scalar} {RNG : Rng SC}.

Lemma returns_ret {A} (a : A) (P : A -> Prop) : P a -> returns (ret a) P.
Proof. intros H g. exists a, g. now split. Qed.

Lemma returns_bind {A B} (m : M A) (k : A -> M B) (P : A -> Prop)
    (Q : B -> Prop) :
  returns m P -> (forall a, P a -> returns (k a) Q) -> returns (bind m k) Q.
Proof.
  intros Hm Hk g. destruct (Hm g) as (a & g1 & E & Ha).
  destruct (Hk a Ha g1) as (b & g2 & E2 & Hb).
  exists b, g2. unfold bind. rewrite E. now split.
Qed.

Lemma returns_weaken {A} (m : M A) (P Q : A -> Prop) :
  returns m P -> (forall a, P a -> Q a) -> returns m Q.
Proof.
  intros Hm H g. destruct (Hm g) as (a & g1 & E & Ha).
  exists a, g1. split; auto.
Qed.

Lemma returns_lift {A} (r : result A) (a : A) (P : A -> Prop) :
  r = Ok a -> P a -> returns (lift r) P.
Proof. intros -> H g. exists a, g. now split. Qed.

Lemma returns_draw {A} (f : gen -> A * gen) : returns (draw f) (fun _ => True).
Proof. intros g. exists (fst (f g)), (snd (f g)). unfold draw. now destruct (f g). Qed.

Lemma returns_replicateM {A} (n : nat) (m : M A) (P : A -> Prop) :
  returns m P ->
  returns (replicateM n m) (fun l => length l = n /\ Forall P l).
Proof.
  intros Hm. induction n as [|n IH]; simpl.
  - apply returns_ret. split; [reflexivity | constructor].
  - apply returns_bind with (P := P); [assumption|]. intros a Ha.
    apply returns_bind with (P := fun l => length l = n /\ Forall P l);
      [assumption|].
    intros l [Hl Hf]. apply returns_ret. split; simpl; [now rewrite Hl|].
    now constructor.
Qed.

Lemma returns_mapM {A B} (f : A -> M B) (P : A -> Prop) (Q : B -> Prop)
    (xs : list A) :
  (forall x, P x -> returns (f x) Q) ->
  Forall P xs ->
  returns (mapM f xs) (fun ys => length ys = length xs /\ Forall Q ys).
Proof.
  intros Hf. induction 1 as [|x xs Hx _ IH]; simpl.
  - apply returns_ret. split; [reflexivity | constructor].
  - apply returns_bind with (P := Q); [now apply Hf|]. intros y Hy.
    eapply returns_bind; [exact IH|].
    intros ys [Hl Hq]. apply returns_ret. split; simpl; [now rewrite Hl|].
    now constructor.
Qed.

Lemma returns_foldM {A B} (f : A -> B -> M A) (I : A -> Prop) (P : B -> Prop)
    (xs : list B) :
  (forall a x, I a -> P x -> returns (f a x) I) ->
  Forall P xs ->
  forall a, I a -> returns (foldM f xs a) I.
Proof.
  intros Hf. induction 1 as [|x xs Hx _ IH]; intros a Ha; simpl.
  - now apply returns_ret.
  - eapply returns_bind; [now apply Hf|]. intros a' Ha'. now apply IH.
Qed.

Lemma deterministic_ret {A} (a : A) : deterministic (ret a).
Proof. exists (Ok a). reflexivity. Qed.

Lemma deterministic_lift {A} (r : result A) : deterministic (lift r).
Proof. exists r. reflexivity. Qed.

Lemma deterministic_bind {A B} (m : M A) (k : A -> M B) :
  deterministic m -> (forall a, deterministic (k a)) -> deterministic (bind m k).
Proof.
  intros [r Hr] Hk. destruct r as [a|e].
  - destruct (Hk a) as [r' Hr']. exists r'. intros g.
    unfold bind. rewrite Hr. simpl. apply Hr'.
  - exists (Raise e). intros g. unfold bind. now rewrite Hr.
Qed.

Lemma deterministic_mapM {A B} (f : A -> M B) (xs : list A) :
  (forall x, deterministic (f x)) -> deterministic (mapM f xs).
Proof.
  intros Hf. induction xs as [|x xs IH]; simpl.
  - apply deterministic_ret.
  - apply deterministic_bind; [apply Hf|]. intros y.
    apply deterministic_bind; [exact IH|]. intros ys. apply deterministic_ret.
Qed.

Lemma deterministic_foldM {A B} (f : A -> B -> M A) (xs : list B) :
  (forall a x, deterministic (f a x)) -> forall a, deterministic (foldM f xs a).
Proof.
  intros Hf. induction xs as [|x xs IH]; intros a; simpl.
  - apply deterministic_ret.
  - apply deterministic_bind; [apply Hf | exact IH].
Qed.

End Monad.

(** ** Constructors *)

Section Constructors.

Context {SC : Scalar} {RNG : Rng SC}.

Lemma raises_bind_l {A B} (m : M A) (k : A -> M B) (e : error) :
  raises m e -> raises (bind m k) e.
Proof. intros H g. unfold bind. now rewrite H. Qed.

Lemma raises_bind_r {A B} (m : M A) (k : A -> M B) (P : A -> Prop) (e : error) :
  returns m P -> (forall a, P a -> raises (k a) e) -> raises (bind m k) e.
Proof.
  intros Hm Hk g. destruct (Hm g) as (a & g1 & E & Ha).
  unfold bind. rewrite E. now apply Hk.
Qed.

Lemma sample_vec_ok (n : nat) : returns (sample_vec n) (shape1 n).
Proof.
  eapply returns_weaken; [apply returns_replicateM, returns_draw|].
  now intros l [Hl _].
Qed.

Lemma sample_mat_ok (r c : nat) : returns (sample_mat r c) (shape2 r c).
Proof. apply returns_replicateM, sample_vec_ok. Qed.

Lemma sample_tensor3_ok (a r c : nat) :
  returns (sample_tensor3 a r c) (shape3 a r c).
Proof. apply returns_replicateM, sample_mat_ok. Qed.

Lemma Linear_init_ok (i o : nat) : returns (Linear_init i o) (Linear_ok i o).
Proof.
  unfold Linear_init.
  eapply returns_bind; [apply sample_mat_ok|]. intros w Hw.
  eapply returns_bind; [apply sample_vec_ok|]. intros b Hb.
  apply returns_ret. repeat split; simpl; solve [apply Hw | apply Hb].
Qed.

Lemma LayerNorm_init_ok (n : nat) (eps : Q) : LayerNorm_ok n (LayerNorm_init n eps).
Proof. split; apply repeat_length. Qed.

Lemma divides_eqb (E H : nat) : 0 < H -> ((E / H) * H =? E) = (E mod H =? 0).
Proof.
  intros HH. pose proof (Nat.div_mod_eq E H) as Hd.
  destruct (E mod H =? 0) eqn:Em.
  - apply Nat.eqb_eq in Em. apply Nat.eqb_eq. lia.
  - apply Nat.eqb_neq in Em. apply Nat.eqb_neq. lia.
Qed.

Lemma MultiheadAttention_init_ok (E H : nat) (p : Q) :
  0 < E -> 0 < H -> E mod H = 0 ->
  returns (MultiheadAttention_init E H p)
          (fun a => MultiheadAttention_ok E H a /\ mha_dropout a = p).
Proof.
  intros HE HH Hm. unfold MultiheadAttention_init.
  destruct (E =? 0) eqn:E0; [apply Nat.eqb_eq in E0; lia|].
  destruct (H =? 0) eqn:H0; [apply Nat.eqb_eq in H0; lia|].
  simpl. rewrite divides_eqb, Hm by assumption. simpl.
  eapply returns_bind; [apply sample_mat_ok|]. intros w Hw.
  eapply returns_bind; [apply sample_mat_ok|]. intros ow How.
  apply returns_ret. split; [|reflexivity].
  assert (Hd : (E / H) * H = E)
    by (apply Nat.eqb_eq; rewrite divides_eqb, Hm by assumption; reflexivity).
  repeat split; simpl; try solve [apply Hw | apply How | apply repeat_length | lia].
Qed.

Lemma MultiheadAttention_init_assert (E H : nat) (p : Q) :
  0 < E -> 0 < H -> E mod H <> 0 ->
  raises (MultiheadAttention_init E H p) AssertionError.
Proof.
  intros HE HH Hm g. unfold MultiheadAttention_init.
  destruct (E =? 0) eqn:E0; [apply Nat.eqb_eq in E0; lia|].
  destruct (H =? 0) eqn:H0; [apply Nat.eqb_eq in H0; lia|].
  simpl. rewrite divides_eqb by assumption.
  apply Nat.eqb_neq in Hm. now rewrite Hm.
Qed.

Lemma Dropout_init_ok (p : Q) : (0 <= p <= 1)%Q -> Dropout_init p = Ok p.
Proof.
  intros [H0 H1]. unfold Dropout_init.
  now rewrite (proj2 (Qle_bool_iff 0 p) H0), (proj2 (Qle_bool_iff p 1) H1).
Qed.

Lemma Dropout_init_value (p : Q) :
  ~ (0 <= p <= 1)%Q -> Dropout_init p = Raise ValueError.
Proof.
  intros Hn. unfold Dropout_init.
  destruct (Qle_bool 0 p) eqn:E0; [|reflexivity].
  destruct (Qle_bool p 1) eqn:E1; [|reflexivity].
  exfalso. apply Hn. split; now apply Qle_bool_iff.
Qed.

Lemma TransformerEncoderLayer_init_ok (E H F : nat) (p : Q) (act : activation)
    (eps : Q) (nf : bool) :
  (0 <= p <= 1)%Q ->
  0 < E -> 0 < H -> E mod H = 0 ->
  returns (TransformerEncoderLayer_init E H F p act eps nf)
          (fun l => TransformerEncoderLayer_ok E H F l
                    /\ norm_first l = nf /\ tel_activation l = act
                    /\ tel_dropout l = p /\ mha_dropout (self_attn l) = p).
Proof.
  intros Hq HE HH Hm. unfold TransformerEncoderLayer_init.
  eapply returns_bind; [now apply MultiheadAttention_init_ok|]. intros a [Ha Hp].
  eapply returns_bind; [apply Linear_init_ok|]. intros l1 H1.
  rewrite (Dropout_init_ok Hq).
  eapply returns_bind;
    [eapply (returns_lift (fun q => q = p)); reflexivity|]. intros q ->.
  eapply returns_bind; [apply Linear_init_ok|]. intros l2 H2.
  apply returns_ret. repeat split; simpl;
    solve [apply Ha | apply H1 | apply H2 | apply repeat_length | exact Hp].
Qed.

Lemma TransformerEncoderLayer_init_assert (E H F : nat) (p : Q)
    (act : activation) (eps : Q) (nf : bool) :
  0 < E -> 0 < H -> E mod H <> 0 ->
  raises (TransformerEncoderLayer_init E H F p act eps nf) AssertionError.
Proof.
  intros HE HH Hm. apply raises_bind_l.
  now apply MultiheadAttention_init_assert.
Qed.

Lemma Conv2d_init_ok (C D P : nat) :
  returns (Conv2d_init C D P P) (Conv2d_ok C D P).
Proof.
  unfold Conv2d_init.
  eapply returns_bind; [apply returns_replicateM, sample_tensor3_ok|].
  intros w Hw.
  eapply returns_bind; [apply sample_vec_ok|]. intros b Hb.
  apply returns_ret. repeat split; simpl; solve [apply Hw | apply Hb].
Qed.

(** *** The heap *)

Lemma deref_app_l (h h' : heap) (a : addr) (l : TransformerEncoderLayer) :
  deref h a = Ok l -> deref (h ++ h') a = Ok l.
Proof.
  unfold deref. destruct (nth_error h a) eqn:E; [|discriminate].
  intros H. rewrite nth_error_app1; [now rewrite E|].
  apply nth_error_Some. congruence.
Qed.

Lemma get_clones_spec (n : nat) :
  forall (h : heap) (a : addr) (l : TransformerEncoderLayer),
    deref h a = Ok l ->
    get_clones h a n = Ok (seq (length h) n, h ++ repeat l n).
Proof.
  induction n as [|n IH]; intros h a l Hd; simpl.
  - now rewrite app_nil_r.
  - unfold deepcopy. rewrite Hd. simpl.
    rewrite (IH (h ++ [l]) a l) by (now apply deref_app_l).
    simpl. rewrite length_app, <- app_assoc. simpl.
    now rewrite Nat.add_1_r.
Qed.

Lemma deref_clone (h : heap) (l : TransformerEncoderLayer) (n a : nat) :
  length h <= a < length h + n -> deref (h ++ repeat l n) a = Ok l.
Proof.
  intros Ha. unfold deref.
  rewrite nth_error_app2 by lia.
  rewrite nth_error_repeat by lia. reflexivity.
Qed.

Lemma TransformerEncoder_init_spec (cfg : Config) (h : heap) :
  (0 <= dropout_size cfg <= 1)%Q ->
  0 < embed_dim cfg -> 0 < num_heads cfg ->
  embed_dim cfg mod num_heads cfg = 0 ->
  returns (TransformerEncoder_init cfg h)
          (fun r => encoder_built cfg h (fst r) (snd r)).
Proof.
  intros Hq HE HH Hm. unfold TransformerEncoder_init.
  eapply returns_bind; [now apply TransformerEncoderLayer_init_ok|].
  intros l (Hok & Hnf & Hact & Hp & Hp').
  unfold alloc. cbn [fst snd].
  rewrite (@get_clones_spec (num_layers cfg) (h ++ [l]) (length h) l).
  2:{ unfold deref. rewrite nth_error_app2, Nat.sub_diag by lia. reflexivity. }
  eapply returns_bind;
    [eapply (returns_lift
               (fun ch => ch = (seq (length (h ++ [l])) (num_layers cfg),
                                (h ++ [l]) ++ repeat l (num_layers cfg))));
     reflexivity|].
  intros ch ->. apply returns_ret. exists l. cbn [fst snd].
  do 5 (split; [assumption|]). cbn.
  split; [now rewrite <- app_assoc|].
  split; [reflexivity|].
  split; [|reflexivity].
  rewrite length_app. simpl. now rewrite Nat.add_1_r.
Qed.

Lemma encoder_built_ok (cfg : Config) (h : heap) (te : TransformerEncoder)
    (h' : heap) :
  encoder_built cfg h te h' -> TransformerEncoder_ok cfg h' te.
Proof.
  intros (l & Hok & _ & _ & _ & _ & -> & _ & Hl & Hn).
  split; [exact Hn|]. rewrite Hl. split; [apply length_seq|].
  apply Forall_forall. intros a Ha. apply in_seq in Ha.
  exists l. split; [|exact Hok].
  replace (h ++ l :: repeat l (num_layers cfg))
    with ((h ++ [l]) ++ repeat l (num_layers cfg))
    by (now rewrite <- app_assoc).
  apply deref_clone. rewrite length_app. simpl. lia.
Qed.

Lemma MLPHead_init_ok (cfg : Config) :
  returns (MLPHead_init cfg) (MLPHead_ok cfg).
Proof.
  unfold MLPHead_init.
  eapply returns_bind; [apply Linear_init_ok|]. intros l Hl.
  apply returns_ret. split; [apply LayerNorm_init_ok | exact Hl].
Qed.

Lemma ViT_init_ok (cfg : Config) (np : nat) (h : heap) :
  (0 <= dropout_size cfg <= 1)%Q ->
  0 < embed_dim cfg -> 0 < num_heads cfg ->
  embed_dim cfg mod num_heads cfg = 0 ->
  returns (ViT_init cfg np h)
          (fun r => ViT_ok cfg np (snd r) (fst r)
                    /\ encoder_built cfg h (transformer_encoder (fst r)) (snd r)
                    /\ embedding_dropout (fst r) = dropout_size cfg).
Proof.
  intros Hq HE HH Hm. unfold ViT_init, PatchEmbedding_init.
  eapply returns_bind.
  { eapply returns_bind; [apply Conv2d_init_ok|]. intros cv Hcv.
    apply returns_ret
      with (P := fun pe => Conv2d_ok (num_channels cfg) (embed_dim cfg)
                                     (patch_size cfg) (pe_conv pe)).
    exact Hcv. }
  intros pe Hpe.
  eapply returns_bind; [apply sample_tensor3_ok|]. intros cls Hcls.
  eapply returns_bind; [apply sample_tensor3_ok|]. intros pos Hpos.
  rewrite (Dropout_init_ok Hq).
  eapply returns_bind;
    [eapply (returns_lift (fun q => q = dropout_size cfg)); reflexivity|].
  intros q ->.
  eapply returns_bind; [now apply TransformerEncoder_init_spec|].
  intros [te h'] Hte. cbn [fst snd] in *.
  eapply returns_bind; [apply MLPHead_init_ok|]. intros hd Hhd.
  apply returns_ret. cbn [fst snd]. repeat split; cbn; auto;
    try solve [apply Hpe | apply Hcls | apply Hpos | apply Hhd
              | apply (encoder_built_ok Hte)].
Qed.

Lemma MultiheadSelfAttention_init_ok (cfg : Config) :
  0 < embed_dim cfg -> 0 < num_heads cfg ->
  embed_dim cfg mod num_heads cfg = 0 ->
  returns (MultiheadSelfAttention_init cfg) (MultiheadSelfAttention_ok cfg).
Proof.
  intros HE HH Hm. unfold MultiheadSelfAttention_init.
  eapply returns_bind; [now apply MultiheadAttention_init_ok|].
  intros a [Ha Hp]. apply returns_ret.
  split; [apply LayerNorm_init_ok | split; assumption].
Qed.

Lemma construct_returns (cfg : Config) :
  (0 <= dropout_size cfg <= 1)%Q ->
  0 < patch_size cfg -> 0 < embed_dim cfg -> 0 < num_heads cfg ->
  embed_dim cfg mod num_heads cfg = 0 ->
  returns (construct cfg)
          (fun r => ViT_ok cfg ((image_size cfg / patch_size cfg) ^ 2)
                           (snd r) (fst r)).
Proof.
  intros Hq HP HE HH Hm. unfold construct, num_patches.
  destruct (patch_size cfg =? 0) eqn:P0; [apply Nat.eqb_eq in P0; lia|].
  eapply returns_bind;
    [eapply (returns_lift
               (fun np => (image_size cfg / patch_size cfg) ^ 2 = np));
     reflexivity|].
  intros np <-.
  eapply returns_weaken; [now apply ViT_init_ok|].
  intros r H. apply H.
Qed.

(** What runs in [ViT.__init__] before [TransformerEncoder(workers)] cannot
    fail once the dropout probability is in range, so an exception of the
    encoder layer's attention is the exception of the constructor. *)
Lemma ViT_init_raises (cfg : Config) (np : nat) (h : heap) (e : error) :
  (0 <= dropout_size cfg <= 1)%Q ->
  raises (MultiheadAttention_init (embed_dim cfg) (num_heads cfg)
                                  (dropout_size cfg)) e ->
  raises (ViT_init cfg np h) e.
Proof.
  intros Hq Hr. unfold ViT_init.
  eapply raises_bind_r.
  { unfold PatchEmbedding_init.
    eapply returns_bind; [apply Conv2d_init_ok|]. intros cv _.
    apply returns_ret with (P := fun _ => True). exact I. }
  intros pe _.
  eapply raises_bind_r; [apply sample_tensor3_ok|]. intros cls _.
  eapply raises_bind_r; [apply sample_tensor3_ok|]. intros pos _.
  rewrite (Dropout_init_ok Hq).
  eapply raises_bind_r;
    [eapply (returns_lift (fun _ => True)); [reflexivity | exact I]|].
  intros q _.
  apply raises_bind_l. unfold TransformerEncoder_init.
  apply raises_bind_l. unfold TransformerEncoderLayer_init.
  apply raises_bind_l. exact Hr.
Qed.

Lemma construct_raises (cfg : Config) (e : error) :
  (0 <= dropout_size cfg <= 1)%Q -> 0 < patch_size cfg ->
  raises (MultiheadAttention_init (embed_dim cfg) (num_heads cfg)
                                  (dropout_size cfg)) e ->
  raises (construct cfg) e.
Proof.
  intros Hq HP Hr. unfold construct, num_patches.
  destruct (patch_size cfg =? 0) eqn:P0; [apply Nat.eqb_eq in P0; lia|].
  eapply raises_bind_r;
    [eapply (returns_lift (fun _ => True)); [reflexivity | exact I]|].
  intros np _. now apply ViT_init_raises.
Qed.

(** C2, as the code has it.  Among the configurations that reach the
    encoder ([patch_size], [embed_dim] and [num_heads] positive, a dropout
    probability that [nn.Dropout] accepts), the only check is the assertion
    of [nn.MultiheadAttention]: when [embed_dim] is not a multiple of
    [num_heads], construction raises [AssertionError] before any forward
    pass.  Nothing compares [image_size] with [patch_size]: whenever
    [embed_dim] is a multiple of [num_heads], construction returns a model
    whose position embedding has [(image_size // patch_size)^2 + 1] rows. *)
Theorem construct_checks_heads_only (cfg : Config) :
  0 < patch_size cfg -> 0 < embed_dim cfg -> 0 < num_heads cfg ->
  (0 <= dropout_size cfg <= 1)%Q ->
  (embed_dim cfg mod num_heads cfg <> 0 -> raises (construct cfg) AssertionError)
  /\ (embed_dim cfg mod num_heads cfg = 0 ->
      returns (construct cfg)
              (fun r => ViT_ok cfg ((image_size cfg / patch_size cfg) ^ 2)
                               (snd r) (fst r))).
Proof.
  intros HP HE HH Hq. split; intros Hm.
  - apply construct_raises; [exact Hq | exact HP |].
    now apply MultiheadAttention_init_assert.
  - now apply construct_returns.
Qed.

End Constructors.

(** ** The encoder stack *)

Section EncoderStack.

Context {SC : Scalar} {RNG : Rng SC}.


Lemma deref_update_other (h : heap) (a b : addr) (l' : TransformerEncoderLayer) :
  a <> b -> deref (heap_update h a l') b = deref h b.
Proof.
  intros Hab. unfold deref, heap_update.
  destruct (a <? length h) eqn:Ha; [|reflexivity].
  apply Nat.ltb_lt in Ha.
  destruct (Nat.lt_ge_cases b a) as [Hlt|Hge].
  - rewrite nth_error_app1 by (rewrite length_firstn; lia).
    now rewrite nth_error_firstn, (proj2 (Nat.ltb_lt b a) Hlt).
  - rewrite nth_error_app2; rewrite length_firstn, Nat.min_l by lia; [|lia].
    replace (b - a) with (S (b - a - 1)) by lia. cbn [nth_error].
    rewrite nth_error_skipn. now replace (S a + (b - a - 1)) with b by lia.
Qed.



Lemma foldM_ext_in {A B} (f f' : A -> B -> M A) (xs : list B) :
  (forall x, In x xs -> forall a g, f a x g = f' a x g) ->
  forall a g, foldM f xs a g = foldM f' xs a g.
Proof.
  induction xs as [|x xs IH]; intros H a g; simpl; [reflexivity|].
  unfold bind. rewrite (H x (or_introl eq_refl)).
  destruct (f' a x g) as [[a' g1]|]; [|reflexivity].
  apply IH. intros y Hy. apply H. now right.
Qed.



End EncoderStack.

(** ** Shapes of the layers *)

Section Shapes.

Context {SC : Scalar} {RNG : Rng SC}.

Lemma rmapM_returns {A B} (f : A -> result B) (P : A -> Prop) (Q : B -> Prop)
    (xs : list A) :
  (forall x, P x -> exists y, f x = Ok y /\ Q y) ->
  Forall P xs ->
  exists ys, rmapM f xs = Ok ys /\ length ys = length xs /\ Forall Q ys.
Proof.
  intros Hf. induction 1 as [|x xs Hx _ IH]; simpl.
  - exists []. repeat split. constructor.
  - destruct (Hf x Hx) as (y & -> & Hy). destruct IH as (ys & -> & Hl & Hq).
    exists (y :: ys). simpl. repeat split; [now rewrite Hl | now constructor].
Qed.

Lemma map_seq_nth {A B} (f : A -> B) (d : A) (xs : list A) :
  map (fun i => f (nth i xs d)) (seq 0 (length xs)) = map f xs.
Proof.
  induction xs as [|x xs IH]; simpl; [reflexivity|].
  now rewrite <- seq_shift, map_map, IH.
Qed.

Lemma Forall_shape_map {A} (f : A -> vec) (n : nat) (xs : list A) :
  (forall x, In x xs -> shape1 n (f x)) -> Forall (shape1 n) (map f xs).
Proof.
  intros H. apply Forall_forall. intros y Hy. apply in_map_iff in Hy.
  destruct Hy as (x & <- & Hx). now apply H.
Qed.

Lemma vadd_shape (n : nat) (u v : vec) :
  shape1 n u -> shape1 n v -> shape1 n (vadd u v).
Proof.
  unfold shape1, vadd. intros Hu Hv.
  rewrite length_map, length_combine. lia.
Qed.

Lemma madd_shape (r c : nat) (x y : mat) :
  shape2 r c x -> shape2 r c y -> shape2 r c (madd x y).
Proof.
  intros [Hx Hxs] [Hy Hys]. unfold madd. split.
  - rewrite length_map, length_combine. lia.
  - apply Forall_forall. intros z Hz. apply in_map_iff in Hz.
    destruct Hz as ([u v] & <- & Huv). rewrite Forall_forall in Hxs, Hys.
    apply vadd_shape; [apply Hxs | apply Hys]; simpl.
    + eapply in_combine_l; eassumption.
    + eapply in_combine_r; eassumption.
Qed.

Lemma badd1_same (n : nat) (u v : vec) :
  shape1 n u -> shape1 n v -> badd1 u v = Ok (vadd u v).
Proof.
  unfold shape1. intros Hu Hv. unfold badd1.
  rewrite broadcast2_same by congruence. apply rmapM_Ok.
Qed.

Lemma badd2_same (r c : nat) (x y : mat) :
  shape2 r c x -> shape2 r c y -> badd2 x y = Ok (madd x y).
Proof.
  intros [Hx Hxs] [Hy Hys]. unfold badd2.
  rewrite broadcast2_same by congruence.
  apply rmapM_Ok_on. intros [u v] Huv. rewrite Forall_forall in Hxs, Hys.
  apply badd1_same with (n := c); [apply Hxs | apply Hys]; simpl.
  - eapply in_combine_l; eassumption.
  - eapply in_combine_r; eassumption.
Qed.

Lemma bdim_batch (B : nat) : bdim B 1 = Some B.
Proof.
  unfold bdim. destruct (B =? 1) eqn:E; [|reflexivity].
  apply Nat.eqb_eq in E. now subst.
Qed.

(** Adding a [1][S][D] tensor to a [B][S][D] tensor adds it to every
    element of the batch. *)
Lemma badd3_batch (B S D : nat) (x pos : tensor3) :
  shape3 B S D x -> shape3 1 S D pos ->
  badd3 x pos = Ok (map (fun m => madd m (hd [] pos)) x)
  /\ shape3 B S D (map (fun m => madd m (hd [] pos)) x).
Proof.
  intros [Hx Hxs] [Hp Hps].
  destruct pos as [|p0 [|? ?]]; try discriminate. simpl hd.
  apply Forall_inv in Hps.
  split.
  - unfold badd3, broadcast2. rewrite Hx. simpl length. rewrite bdim_batch.
    rewrite <- (map_seq_nth (fun m => madd m p0) [] x), Hx.
    apply rmapM_Ok_on. intros i Hi. apply in_seq in Hi.
    unfold pick. simpl length. simpl (1 =? 1). cbn [nth].
    replace (if length x =? 1 then 0 else i) with i.
    2:{ destruct (length x =? 1) eqn:E; [|reflexivity].
        apply Nat.eqb_eq in E. lia. }
    apply badd2_same with (r := S) (c := D); [|exact Hps].
    rewrite Forall_forall in Hxs. apply Hxs, nth_In. lia.
  - split; [now rewrite length_map|].
    apply Forall_forall. intros y Hy. apply in_map_iff in Hy.
    destruct Hy as (m & <- & Hm). rewrite Forall_forall in Hxs.
    apply madd_shape; [now apply Hxs | exact Hps].
Qed.

Lemma Linear_forward_shape (i o : nat) (l : Linear) (x : vec) :
  Linear_ok i o l -> shape1 i x ->
  exists y, Linear_forward l x = Ok y /\ shape1 o y.
Proof.
  intros (Hi & [Hw _] & Hb) Hx. unfold Linear_forward.
  unfold shape1 in *. rewrite Hx, Hi, Nat.eqb_refl.
  eexists. split; [reflexivity|]. unfold linear.
  rewrite length_map, length_combine. lia.
Qed.

Lemma layer_norm_shape (n : nat) (ln : LayerNorm) (x : vec) :
  LayerNorm_ok n ln -> shape1 n x -> shape1 n (layer_norm ln x).
Proof.
  unfold LayerNorm_ok, shape1, layer_norm. intros [Hw Hb] Hx.
  rewrite length_map, !length_combine, length_map. lia.
Qed.

Lemma LayerNorm_forward_shape (n : nat) (ln : LayerNorm) (x : vec) :
  LayerNorm_ok n ln -> shape1 n x ->
  exists y, LayerNorm_forward ln x = Ok y /\ shape1 n y.
Proof.
  intros Hok Hx. unfold LayerNorm_forward.
  destruct Hok as [Hw Hb]. unfold shape1 in *.
  rewrite Hx, Hw, Nat.eqb_refl. eexists. split; [reflexivity|].
  apply layer_norm_shape; [split|]; assumption.
Qed.

Lemma norm_seq_shape (r n : nat) (ln : LayerNorm) (x : mat) :
  LayerNorm_ok n ln -> shape2 r n x -> returns (norm_seq ln x) (shape2 r n).
Proof.
  intros Hok [Hx Hxs]. unfold norm_seq.
  destruct (@rmapM_returns _ _ (LayerNorm_forward ln) (shape1 n) (shape1 n) x
              (fun v => LayerNorm_forward_shape Hok (x := v)) Hxs)
    as (ys & E & Hl & Hq).
  eapply returns_lift; [exact E|]. split; [congruence | assumption].
Qed.

(** Dropout keeps the shape, in both modes. *)
Lemma Dropout_returns {T} (each : (scalar -> M scalar) -> T -> M T)
    (P : T -> Prop) (training : bool) (p : Q) (x : T) :
  (forall f, (forall a, returns (f a) (fun _ => True)) -> returns (each f x) P) ->
  P x -> returns (Dropout each training p x) P.
Proof.
  intros Hf Hx. unfold Dropout.
  destruct (negb training || Qeq_bool p 0); [now apply returns_ret|].
  destruct (Qeq_bool p 1); apply Hf; intros a.
  - now apply returns_ret.
  - unfold drop_scalar. eapply returns_bind; [apply returns_draw|].
    intros keep _. now apply returns_ret.
Qed.

Lemma each1_shape (n : nat) (f : scalar -> M scalar) (v : vec) :
  (forall a, returns (f a) (fun _ => True)) ->
  shape1 n v -> returns (each1 f v) (shape1 n).
Proof.
  intros Hf Hv. unfold each1.
  eapply returns_weaken.
  - apply returns_mapM with (P := fun _ => True) (Q := fun _ => True).
    + intros a _. apply Hf.
    + apply Forall_forall. auto.
  - intros ys [Hl _]. unfold shape1 in *. congruence.
Qed.

Lemma each2_shape (r c : nat) (f : scalar -> M scalar) (m : mat) :
  (forall a, returns (f a) (fun _ => True)) ->
  shape2 r c m -> returns (each2 f m) (shape2 r c).
Proof.
  intros Hf [Hm Hms]. unfold each2.
  eapply returns_weaken.
  - apply returns_mapM with (P := shape1 c) (Q := shape1 c); [|exact Hms].
    intros v Hv. now apply each1_shape.
  - intros ys [Hl Hq]. split; [congruence | assumption].
Qed.

Lemma each3_shape (a r c : nat) (f : scalar -> M scalar) (t : tensor3) :
  (forall a, returns (f a) (fun _ => True)) ->
  shape3 a r c t -> returns (each3 f t) (shape3 a r c).
Proof.
  intros Hf [Ht Hts]. unfold each3.
  eapply returns_weaken.
  - apply returns_mapM with (P := shape2 r c) (Q := shape2 r c); [|exact Hts].
    intros m Hm. now apply each2_shape.
  - intros ys [Hl Hq]. split; [congruence | assumption].
Qed.

Lemma Dropout1_shape (n : nat) (training : bool) (p : Q) (v : vec) :
  shape1 n v -> returns (Dropout each1 training p v) (shape1 n).
Proof.
  intros Hv. apply Dropout_returns; [|exact Hv].
  intros f Hf. now apply each1_shape.
Qed.

Lemma Dropout2_shape (r c : nat) (training : bool) (p : Q) (m : mat) :
  shape2 r c m -> returns (Dropout each2 training p m) (shape2 r c).
Proof.
  intros Hm. apply Dropout_returns; [|exact Hm].
  intros f Hf. now apply each2_shape.
Qed.

Lemma Dropout3_shape (a r c : nat) (training : bool) (p : Q) (t : tensor3) :
  shape3 a r c t -> returns (Dropout each3 training p t) (shape3 a r c).
Proof.
  intros Ht. apply Dropout_returns; [|exact Ht].
  intros f Hf. now apply each3_shape.
Qed.

Lemma length_concat_shape (c : nat) (m : mat) :
  Forall (shape1 c) m -> length (concat m) = length m * c.
Proof.
  induction 1 as [|v m Hv _ IH]; simpl; [reflexivity|].
  rewrite length_app, IH. unfold shape1 in Hv. lia.
Qed.

Lemma attend_shape (training : bool) (p : Q) (dh : nat) (q : vec)
    (ks vs : list vec) :
  returns (attend training p dh q ks vs) (shape1 dh).
Proof.
  unfold attend.
  eapply returns_bind; [apply Dropout1_shape; reflexivity|].
  intros w _. apply returns_ret.
  unfold weighted_sum, shape1. now rewrite length_map, length_seq.
Qed.

Lemma in_proj_returns (E H : nat) (a : MultiheadAttention) (x : vec) :
  MultiheadAttention_ok E H a -> shape1 E x ->
  exists y, in_proj a x = Ok y /\ True.
Proof.
  intros (HE & _ & _ & _ & Hw & Hb & _) Hx. unfold in_proj. rewrite HE.
  destruct (@Linear_forward_shape E (3 * E)
              {| lin_in_features := E; lin_weight := in_proj_weight a;
                 lin_bias := in_proj_bias a |} x) as (y & -> & _).
  - repeat split; simpl; solve [apply Hw | exact Hb].
  - exact Hx.
  - simpl. eexists. split; [reflexivity | exact I].
Qed.

Lemma attention_seq_shape (E H S : nat) (training : bool)
    (a : MultiheadAttention) (x : mat) :
  MultiheadAttention_ok E H a -> shape2 S E x ->
  returns (attention_seq training a x) (shape2 S E).
Proof.
  intros Hok [Hx Hxs]. unfold attention_seq.
  destruct (@rmapM_returns _ _ (in_proj a) (shape1 E) (fun _ => True) x
              (fun v => in_proj_returns Hok (x := v)) Hxs)
    as (ps & Eps & Hl & _).
  eapply returns_bind; [eapply (returns_lift (fun r => r = ps)); [exact Eps | reflexivity]|].
  intros ps' ->.
  eapply returns_weaken.
  - apply returns_mapM with (P := fun _ => True) (Q := shape1 E);
      [|apply Forall_forall; auto].
    intros t _.
    eapply returns_bind.
    + apply returns_mapM with (P := fun _ => True) (Q := shape1 (head_dim a));
        [|apply Forall_forall; auto].
      intros h _. apply attend_shape.
    + intros heads [Hhl Hhs].
      destruct Hok as (HE & HH & _ & Hd & _ & _ & Hout).
      destruct (@Linear_forward_shape E E (out_proj a) (concat heads) Hout)
        as (y & Ey & Hy).
      { unfold shape1. rewrite (length_concat_shape Hhs), Hhl, length_seq.
        unfold head_dim. rewrite HE, HH. lia. }
      eapply returns_lift; [exact Ey | exact Hy].
  - intros ys [Hyl Hys]. split; [congruence | assumption].
Qed.

Lemma sa_block_shape (E H F S : nat) (training : bool)
    (l : TransformerEncoderLayer) (x : mat) :
  TransformerEncoderLayer_ok E H F l -> shape2 S E x ->
  returns (sa_block training l x) (shape2 S E).
Proof.
  intros (Ha & _) Hx. unfold sa_block.
  eapply returns_bind; [eapply attention_seq_shape; eassumption|].
  intros y Hy. now apply Dropout2_shape.
Qed.

Lemma linear_seq_shape (i o r : nat) (l : Linear) (x : mat) :
  Linear_ok i o l -> shape2 r i x ->
  returns (lift (rmapM (Linear_forward l) x)) (shape2 r o).
Proof.
  intros Hok [Hx Hxs].
  destruct (@rmapM_returns _ _ (Linear_forward l) (shape1 i) (shape1 o) x
              (fun v => Linear_forward_shape Hok (x := v)) Hxs)
    as (ys & Eys & Hl & Hq).
  eapply returns_lift; [exact Eys|]. split; [congruence | assumption].
Qed.

Lemma map_map_shape (r c : nat) (f : scalar -> scalar) (x : mat) :
  shape2 r c x -> shape2 r c (map (map f) x).
Proof.
  intros [Hx Hxs]. split; [now rewrite length_map|].
  apply Forall_shape_map. intros v Hv. rewrite Forall_forall in Hxs.
  unfold shape1. rewrite length_map. now apply Hxs.
Qed.

Lemma ff_block_shape (E H F S : nat) (training : bool)
    (l : TransformerEncoderLayer) (x : mat) :
  TransformerEncoderLayer_ok E H F l -> shape2 S E x ->
  returns (ff_block training l x) (shape2 S E).
Proof.
  intros (_ & H1 & H2 & _) Hx. unfold ff_block, feed_forward.
  eapply returns_bind.
  - eapply returns_bind; [eapply linear_seq_shape; eassumption|].
    intros h Hh.
    eapply returns_bind;
      [apply Dropout2_shape with (r := S) (c := F); now apply map_map_shape|].
    intros h' Hh'. eapply linear_seq_shape; eassumption.
  - intros y Hy. now apply Dropout2_shape.
Qed.

Lemma layer_seq_shape (E H F S : nat) (training : bool)
    (l : TransformerEncoderLayer) (x : mat) :
  TransformerEncoderLayer_ok E H F l -> shape2 S E x ->
  returns (layer_seq training l x) (shape2 S E).
Proof.
  intros Hok Hx. pose proof Hok as (_ & _ & _ & Hn1 & Hn2).
  unfold layer_seq. destruct (norm_first l).
  - eapply returns_bind; [exact (norm_seq_shape Hn1 Hx)|]. intros n1 H1.
    eapply returns_bind; [exact (sa_block_shape training Hok H1)|].
    intros a Ha. cbv zeta.
    pose proof (madd_shape Hx Ha) as Hx1.
    eapply returns_bind; [exact (norm_seq_shape Hn2 Hx1)|]. intros n2 H2.
    eapply returns_bind; [exact (ff_block_shape training Hok H2)|].
    intros f Hf. apply returns_ret. now apply madd_shape.
  - eapply returns_bind; [exact (sa_block_shape training Hok Hx)|].
    intros a Ha.
    eapply returns_bind; [exact (norm_seq_shape Hn1 (madd_shape Hx Ha))|].
    intros x1 H1.
    eapply returns_bind; [exact (ff_block_shape training Hok H1)|].
    intros f Hf. exact (norm_seq_shape Hn2 (madd_shape H1 Hf)).
Qed.

Lemma TransformerEncoderLayer_forward_shape (E H F B S : nat) (training : bool)
    (l : TransformerEncoderLayer) (x : tensor3) :
  TransformerEncoderLayer_ok E H F l -> shape3 B S E x ->
  returns (TransformerEncoderLayer_forward training l x) (shape3 B S E).
Proof.
  intros Hok [Hx Hxs]. unfold TransformerEncoderLayer_forward.
  eapply returns_weaken.
  - apply returns_mapM with (P := shape2 S E) (Q := shape2 S E); [|exact Hxs].
    intros m Hm. eapply layer_seq_shape; eassumption.
  - intros ys [Hl Hq]. split; [congruence | assumption].
Qed.

Lemma TransformerEncoder_forward_shape (cfg : Config) (B S : nat)
    (training : bool) (h : heap) (te : TransformerEncoder) (x : tensor3) :
  TransformerEncoder_ok cfg h te -> shape3 B S (embed_dim cfg) x ->
  returns (TransformerEncoder_forward training h te x)
          (shape3 B S (embed_dim cfg)).
Proof.
  intros (Hn & _ & Hls) Hx.
  unfold TransformerEncoder_forward, nnTransformerEncoder_forward.
  rewrite Hn.
  eapply returns_bind; [|intros out Hout; apply returns_ret; exact Hout].
  apply returns_foldM
    with (I := shape3 B S (embed_dim cfg))
         (P := fun a => exists l, deref h a = Ok l
                 /\ TransformerEncoderLayer_ok (embed_dim cfg) (num_heads cfg)
                                               (mlp_size cfg) l);
    [|exact Hls|exact Hx].
  intros out a Hout (l & Hd & Hok).
  eapply returns_bind;
    [eapply (returns_lift (fun r => r = l)); [exact Hd | reflexivity]|].
  intros l' ->. eapply TransformerEncoderLayer_forward_shape; eassumption.
Qed.

(** *** Patch embedding *)

Lemma conv_out_exact (H P : nat) :
  0 < P -> 0 < H -> H mod P = 0 -> P <= H /\ conv_out H P P = H / P.
Proof.
  intros HP HH Hm. pose proof (Nat.div_mod_eq H P) as Hd.
  rewrite Hm, Nat.add_0_r in Hd.
  assert (Hq : 0 < H / P) by (destruct (H / P); lia).
  split; [nia|]. unfold conv_out.
  replace (H - P) with ((H / P - 1) * P) by nia.
  rewrite Nat.div_mul by lia. lia.
Qed.

Lemma conv2d_image_shape (C D P H W : nat) (cv : Conv2d) (img : tensor3) :
  Conv2d_ok C D P cv -> 0 < C -> 0 < P -> P <= H -> P <= W ->
  shape3 C H W img ->
  exists y, conv2d_image cv img = Ok y
            /\ shape3 D (conv_out H P P) (conv_out W P P) y.
Proof.
  intros (Hc & Hk & Hs & [Hw _] & Hb) HC HP HH HW [Hi His].
  unfold conv2d_image. rewrite Hc, Hk, Hs.
  destruct img as [|ch img]; [simpl in Hi; lia|].
  apply Forall_inv in His. destruct His as [Hch Hrows].
  destruct ch as [|row ch]; [simpl in Hch; lia|].
  apply Forall_inv in Hrows. cbn [hd].
  rewrite Hi, Hch, Hrows, Nat.eqb_refl.
  rewrite (proj2 (Nat.ltb_lt 0 P) HP).
  rewrite (proj2 (Nat.leb_le P H) HH), (proj2 (Nat.leb_le P W) HW).
  cbn [andb]. eexists. split; [reflexivity|].
  unfold shape1 in Hb. split.
  - rewrite length_map, length_combine. lia.
  - apply Forall_forall. intros m Hm. apply in_map_iff in Hm.
    destruct Hm as (wb & <- & _). split.
    + now rewrite length_map, length_seq.
    + apply Forall_shape_map. intros i _. unfold shape1.
      now rewrite length_map, length_seq.
Qed.

Lemma flatten_shape (D R W : nat) (y : tensor3) :
  shape3 D R W y -> shape2 D (R * W) (map (@concat scalar) y).
Proof.
  intros [Hy Hys]. split; [now rewrite length_map|].
  apply Forall_shape_map. intros m Hm. rewrite Forall_forall in Hys.
  destruct (Hys m Hm) as [Hl Hr]. unfold shape1.
  now rewrite (length_concat_shape Hr), Hl.
Qed.

Lemma transpose_shape (D N : nat) (m : mat) :
  0 < D -> shape2 D N m -> shape2 N D (transpose m).
Proof.
  intros HD [Hm Hms]. unfold transpose.
  destruct m as [|row m]; [simpl in Hm; lia|].
  pose proof (Forall_inv Hms) as Hrow. cbn [hd]. rewrite Hrow. split.
  - now rewrite length_map, length_seq.
  - apply Forall_shape_map. intros j _. unfold shape1.
    now rewrite length_map.
Qed.

Lemma PatchEmbedding_forward_shape (cfg : Config) (pe : PatchEmbedding)
    (B H W : nat) (input : tensor4) :
  0 < patch_size cfg -> 0 < num_channels cfg -> 0 < embed_dim cfg ->
  Conv2d_ok (num_channels cfg) (embed_dim cfg) (patch_size cfg) (pe_conv pe) ->
  0 < H -> 0 < W ->
  H mod patch_size cfg = 0 -> W mod patch_size cfg = 0 ->
  shape4 B (num_channels cfg) H W input ->
  exists y,
    PatchEmbedding_forward pe input = Ok y
    /\ shape3 B ((H / patch_size cfg) * (W / patch_size cfg)) (embed_dim cfg) y.
Proof.
  intros HP HC HD Hcv HH HW HmH HmW [Hin Hins].
  destruct (conv_out_exact HP HH HmH) as [HleH EH].
  destruct (conv_out_exact HP HW HmW) as [HleW EW].
  unfold PatchEmbedding_forward, Conv2d_forward.
  destruct (@rmapM_returns _ _ (conv2d_image (pe_conv pe))
              (shape3 (num_channels cfg) H W)
              (shape3 (embed_dim cfg) (H / patch_size cfg) (W / patch_size cfg))
              input) as (ys & -> & Hl & Hq); [|exact Hins|].
  { intros img Himg. rewrite <- EH, <- EW.
    eapply conv2d_image_shape; eassumption. }
  simpl. eexists. split; [reflexivity|].
  unfold permute_0_2_1, Flatten_2_3. split.
  - rewrite !length_map. exact (eq_trans Hl Hin).
  - rewrite map_map. apply Forall_forall. intros m Hm.
    apply in_map_iff in Hm. destruct Hm as (y & <- & Hy).
    rewrite Forall_forall in Hq.
    apply transpose_shape; [exact HD|]. apply flatten_shape. now apply Hq.
Qed.

(** C3: on a batch of [B] images of [num_channels] channels and positive
    height [H] and width [W], both multiples of [patch_size],
    [PatchEmbedding] returns a tensor of shape [B][N][embed_dim] with
    [N = (H / patch_size) * (W / patch_size)], whatever [B]; for images of
    [image_size] by [image_size] that is [(image_size / patch_size)^2]. *)
Theorem PatchEmbedding_output_shape (cfg : Config) (pe : PatchEmbedding)
    (B H W : nat) (input : tensor4) :
  0 < patch_size cfg -> 0 < num_channels cfg -> 0 < embed_dim cfg ->
  Conv2d_ok (num_channels cfg) (embed_dim cfg) (patch_size cfg) (pe_conv pe) ->
  0 < H -> 0 < W ->
  H mod patch_size cfg = 0 -> W mod patch_size cfg = 0 ->
  shape4 B (num_channels cfg) H W input ->
  exists y,
    PatchEmbedding_forward pe input = Ok y
    /\ shape3 B ((H / patch_size cfg) * (W / patch_size cfg)) (embed_dim cfg) y
    /\ (H = image_size cfg -> W = image_size cfg ->
        shape3 B ((image_size cfg / patch_size cfg) ^ 2) (embed_dim cfg) y).
Proof.
  intros HP HC HD Hcv HH HW HmH HmW Hin.
  destruct (@PatchEmbedding_forward_shape cfg pe B H W input
              HP HC HD Hcv HH HW HmH HmW Hin)
    as (y & Ey & Hs).
  exists y. split; [exact Ey|]. split; [exact Hs|].
  intros EH EW. rewrite EH, EW in Hs. simpl. now rewrite Nat.mul_1_r.
Qed.

(** *** The whole model *)

Lemma expand_batch_shape (B D : nat) (t : tensor3) :
  shape3 1 1 D t ->
  exists y, expand_batch B t = Ok y /\ shape3 B 1 D y.
Proof.
  intros [Ht Hts]. unfold expand_batch. rewrite Ht. simpl.
  eexists. split; [reflexivity|]. split; [apply repeat_length|].
  apply Forall_forall. intros m Hm. apply repeat_spec in Hm. subst m.
  destruct t as [|m t]; [discriminate|]. now apply Forall_inv in Hts.
Qed.

Lemma cat_dim1_shape (B N D : nat) (a b : tensor3) :
  0 < N -> shape3 B 1 D a -> shape3 B N D b ->
  exists y, cat_dim1 a b = Ok y /\ shape3 B (N + 1) D y.
Proof.
  intros HN [Ha Has] [Hb Hbs]. unfold cat_dim1.
  assert (E : length (hd [] (hd [] a)) = length (hd [] (hd [] b))).
  { destruct a as [|ma a], b as [|mb b]; simpl in *; try lia.
    apply Forall_inv in Has, Hbs.
    destruct Has as [Hla Hra], Hbs as [Hlb Hrb].
    destruct ma as [|ra ma]; [discriminate|].
    destruct mb as [|rb mb]; [simpl in Hlb; lia|].
    apply Forall_inv in Hra, Hrb. simpl. unfold shape1 in *. lia. }
  rewrite Ha, Hb, E, !Nat.eqb_refl. simpl.
  eexists. split; [reflexivity|]. split.
  - rewrite length_map, length_combine. lia.
  - apply Forall_forall. intros m Hm. apply in_map_iff in Hm.
    destruct Hm as ([x y] & <- & Hxy). rewrite Forall_forall in Has, Hbs.
    destruct (Has x (in_combine_l _ _ _ _ Hxy)) as [Hx Hxs].
    destruct (Hbs y (in_combine_r _ _ _ _ Hxy)) as [Hy Hys].
    simpl. split.
    + rewrite length_app. lia.
    + now apply Forall_app.
Qed.

Lemma select_0_shape (B S D : nat) (x : tensor3) :
  0 < S -> shape3 B S D x ->
  exists y, select_0 x = Ok y /\ shape2 B D y.
Proof.
  intros HS [Hx Hxs]. unfold select_0.
  destruct (@rmapM_returns _ _
              (fun s : mat => match s with
                              | [] => Raise IndexError
                              | t :: _ => Ok t
                              end)
              (shape2 S D) (shape1 D) x) as (y & E & Hl & Hq);
    [|exact Hxs|].
  - intros m [Hm Hms]. destruct m as [|t m]; [simpl in Hm; lia|].
    exists t. split; [reflexivity|]. now apply Forall_inv in Hms.
  - exists y. split; [exact E|]. split; [exact (eq_trans Hl Hx) | exact Hq].
Qed.

Lemma MLPHead_forward_shape (cfg : Config) (B : nat) (m : MLPHead) (x : mat) :
  MLPHead_ok cfg m -> shape2 B (embed_dim cfg) x ->
  exists y, MLPHead_forward m x = Ok y /\ shape2 B (num_classes cfg) y.
Proof.
  intros [Hn Hlin] [Hx Hxs]. unfold MLPHead_forward.
  destruct (@rmapM_returns _ _
              (fun v => rbind (LayerNorm_forward (head_norm m) v)
                              (Linear_forward (head_linear m)))
              (shape1 (embed_dim cfg)) (shape1 (num_classes cfg)) x)
    as (y & E & Hl & Hq); [|exact Hxs|].
  - intros v Hv.
    destruct (LayerNorm_forward_shape Hn Hv) as (n & -> & Hnv). simpl.
    exact (Linear_forward_shape Hlin Hnv).
  - exists y. split; [exact E|]. split; [exact (eq_trans Hl Hx) | exact Hq].
Qed.

Lemma ViT_forward_run (cfg : Config) (np : nat) (h : heap) (v : ViT)
    (training : bool) (B H W : nat) (input : tensor4) (g : gen) :
  0 < patch_size cfg -> 0 < num_channels cfg -> 0 < embed_dim cfg ->
  ViT_ok cfg np h v ->
  0 < H -> 0 < W ->
  H mod patch_size cfg = 0 -> W mod patch_size cfg = 0 ->
  (H / patch_size cfg) * (W / patch_size cfg) = np ->
  shape4 B (num_channels cfg) H W input ->
  exists y g',
    ViT_forward training h v input g = Ok (y, g')
    /\ forward_stages cfg B np training h v input g y g'
    /\ shape2 B (num_classes cfg) y.
Proof.
  intros HP HC HD (Hcv & Hcls & Hpos & Henc & Hhead) HH HW HmH HmW Hnp Hin.
  destruct (@PatchEmbedding_forward_shape cfg (patch_embedding v) B H W input
              HP HC HD Hcv HH HW HmH HmW Hin) as (e & Ee & He).
  rewrite Hnp in He.
  assert (HN : 0 < np).
  { destruct (conv_out_exact HP HH HmH) as [H1 _].
    destruct (conv_out_exact HP HW HmW) as [H2 _].
    pose proof (Nat.div_mod_eq H (patch_size cfg)) as D1.
    pose proof (Nat.div_mod_eq W (patch_size cfg)) as D2.
    rewrite <- Hnp. nia. }
  destruct (expand_batch_shape B Hcls) as (c & Ec & Hc).
  destruct (cat_dim1_shape HN Hc He) as (w & Ew & Hw).
  destruct (badd3_batch Hw Hpos) as [Ea Ha].
  destruct (Dropout3_shape training (embedding_dropout v) Ha g)
    as (d & g1 & Ed & Hd).
  destruct (TransformerEncoder_forward_shape training Henc Hd g1)
    as (z & g2 & Ez & Hz).
  destruct (@select_0_shape B (np + 1) (embed_dim cfg) z) as (s & Es & Hs);
    [lia | exact Hz |].
  destruct (MLPHead_forward_shape Hhead Hs) as (y & Ey & Hy).
  exists y, g2. split; [|split; [|exact Hy]].
  - unfold ViT_forward. destruct Hin as [Hin _]. rewrite Hin.
    unfold bind, lift. rewrite Ec, Ee, Ew, Ea, Ed, Ez, Es, Ey. reflexivity.
  - destruct Hin as [Hin _].
    exists e, c, w, (map (fun m => madd m (hd [] (position_embed_token v))) w),
      d, z, s, g1.
    repeat split; try assumption;
      solve [apply He | apply Hw | apply Ha | apply Hd | apply Hz | apply Hs].
Qed.

(** C1, with the condition the position embedding imposes: on a batch of
    [B] images of positive height [H] and width [W], multiples of
    [patch_size], whose number of patches equals the [num_patches] the model
    was built for, the forward pass runs the seven stages in order (patch
    embedding, class token, position embedding, dropout, encoder stack,
    position 0, head) and returns logits of shape [B][num_classes], in
    either mode. *)
Theorem ViT_forward_stages (cfg : Config) (np : nat) (h : heap) (v : ViT)
    (training : bool) (B H W : nat) (input : tensor4) (g : gen) :
  0 < patch_size cfg -> 0 < num_channels cfg -> 0 < embed_dim cfg ->
  ViT_ok cfg np h v ->
  0 < H -> 0 < W ->
  H mod patch_size cfg = 0 -> W mod patch_size cfg = 0 ->
  (H / patch_size cfg) * (W / patch_size cfg) = np ->
  shape4 B (num_channels cfg) H W input ->
  exists y g',
    ViT_forward training h v input g = Ok (y, g')
    /\ forward_stages cfg B np training h v input g y g'
    /\ shape2 B (num_classes cfg) y.
Proof. apply ViT_forward_run. Qed.

(** The test loop on the model itself: every batch of the loader is
    answered with one non-empty row of logits per label, so the accuracy
    [main] prints is the share of correct examples. *)
Lemma eval_forward_batch_ok (cfg : Config) (h : heap) (v : ViT) (g : gen)
    (b : batch tensor4) :
  0 < patch_size cfg -> 0 < num_channels cfg -> 0 < embed_dim cfg ->
  0 < num_classes cfg ->
  0 < image_size cfg -> image_size cfg mod patch_size cfg = 0 ->
  ViT_ok cfg ((image_size cfg / patch_size cfg) ^ 2) h v ->
  loader_batch cfg b ->
  batch_ok (eval_forward h v g) b.
Proof.
  intros HP HC HD HK HI Hm Hok Hb.
  destruct (@ViT_forward_run cfg ((image_size cfg / patch_size cfg) ^ 2) h v
              false (length (snd b)) (image_size cfg) (image_size cfg)
              (fst b) g) as (y & g' & E & _ & [Hl Hrows]); auto.
  { simpl. now rewrite Nat.mul_1_r. }
  exists y. unfold eval_forward. rewrite E. repeat split; [exact Hl|].
  eapply Forall_impl; [|exact Hrows].
  intros row Hrow ->. unfold shape1 in Hrow. simpl in Hrow. lia.
Qed.


End Shapes.

(** ** Evaluation mode *)

Section Evaluation.

Context {SC : Scalar} {RNG : Rng SC}.

Lemma Dropout_eval {T} (each : (scalar -> M scalar) -> T -> M T) (p : Q) (x : T) :
  Dropout each false p x = ret x.
Proof. reflexivity. Qed.

Lemma attention_seq_eval (a : MultiheadAttention) (x : mat) :
  deterministic (attention_seq false a x).
Proof.
  unfold attention_seq.
  apply deterministic_bind; [apply deterministic_lift|]. intros ps.
  apply deterministic_mapM. intros t.
  apply deterministic_bind; [|intros heads; apply deterministic_lift].
  apply deterministic_mapM. intros h. unfold attend.
  rewrite Dropout_eval.
  apply deterministic_bind; [apply deterministic_ret|].
  intros w. apply deterministic_ret.
Qed.

Lemma sa_block_eval (l : TransformerEncoderLayer) (x : mat) :
  deterministic (sa_block false l x).
Proof.
  unfold sa_block. apply deterministic_bind; [apply attention_seq_eval|].
  intros y. rewrite Dropout_eval. apply deterministic_ret.
Qed.

Lemma ff_block_eval (l : TransformerEncoderLayer) (x : mat) :
  deterministic (ff_block false l x).
Proof.
  unfold ff_block, feed_forward.
  apply deterministic_bind.
  - apply deterministic_bind; [apply deterministic_lift|]. intros h.
    rewrite Dropout_eval.
    apply deterministic_bind; [apply deterministic_ret|]. intros h'.
    apply deterministic_lift.
  - intros y. rewrite Dropout_eval. apply deterministic_ret.
Qed.

Lemma layer_seq_eval (l : TransformerEncoderLayer) (x : mat) :
  deterministic (layer_seq false l x).
Proof.
  unfold layer_seq, norm_seq. destruct (norm_first l);
    repeat first [ apply deterministic_lift
                 | apply deterministic_ret
                 | apply sa_block_eval
                 | apply ff_block_eval
                 | apply deterministic_bind; [|intros ?] ].
Qed.

Lemma TransformerEncoder_forward_eval (h : heap) (te : TransformerEncoder)
    (x : tensor3) :
  deterministic (TransformerEncoder_forward false h te x).
Proof.
  unfold TransformerEncoder_forward, nnTransformerEncoder_forward.
  apply deterministic_bind.
  - apply deterministic_foldM. intros out a.
    apply deterministic_bind; [apply deterministic_lift|]. intros l.
    apply deterministic_mapM. intros m. apply layer_seq_eval.
  - intros out. destruct (enc_norm (full_transformer_encoder te));
      [apply deterministic_lift | apply deterministic_ret].
Qed.

Lemma ViT_forward_eval (h : heap) (v : ViT) (input : tensor4) :
  deterministic (ViT_forward false h v input).
Proof.
  unfold ViT_forward.
  repeat first [ apply deterministic_lift
               | apply TransformerEncoder_forward_eval
               | rewrite Dropout_eval; apply deterministic_ret
               | apply deterministic_bind; [|intros ?] ].
Qed.

Lemma deterministic_same_twice {A} (m : M A) : deterministic m -> same_twice m.
Proof.
  intros [r Hr] g. unfold run_twice. rewrite Hr.
  destruct r as [a|e]; simpl; [|exact I].
  now rewrite Hr.
Qed.

End Evaluation.

Lemma tiny_model_built : tiny_model = Ok tiny_built.
Proof. reflexivity. Qed.

(** C8: in evaluation mode the forward pass neither reads nor advances the
    generator, so two calls in a row on the same input return the same
    logits, for every model and input; in training mode two calls in a row
    can return different logits, as they do for the small model. *)
Theorem forward_twice :
  (forall (SC : Scalar) (RNG : Rng SC) (h : heap) (v : ViT) (input : tensor4),
      deterministic (ViT_forward false h v input)
      /\ same_twice (ViT_forward false h v input))
  /\ exists y1 y2 : @mat FX,
       tiny_model = Ok tiny_built
       /\ @run_twice FX LCG _
            (@ViT_forward FX LCG true tiny_heap tiny_vit tiny_batch) 0
          = Ok (y1, y2)
       /\ y1 <> y2.
Proof.
  split.
  - intros SC RNG h v input. split; [apply ViT_forward_eval|].
    apply deterministic_same_twice, ViT_forward_eval.
  - exists [[Fx (-2097151); Fx 524288]; [Fx (-2097145); Fx 524285]],
           [[Fx (-2097149); Fx 524287]; [Fx (-2097151); Fx 524288]].
    split; [exact tiny_model_built|].
    split; [vm_compute; reflexivity | discriminate].
Qed.

(** ** Self-attention and the order of the sequence *)

Section Equivariance.

Context {SC : Scalar} {RNG : Rng SC}.

Hypothesis Radd_comm : forall a b : scalar, Radd a b = Radd b a.
Hypothesis Radd_assoc :
  forall a b c : scalar, Radd a (Radd b c) = Radd (Radd a b) c.

Lemma vsum_Permutation (u v : vec) : Permutation u v -> vsum u = vsum v.
Proof.
  unfold vsum. induction 1 as [|x u v _ IH|x y u|u v w _ IH1 _ IH2]; simpl.
  - reflexivity.
  - now rewrite IH.
  - rewrite !Radd_assoc. f_equal. apply Radd_comm.
  - now rewrite IH1.
Qed.

Lemma combine_map_map {A B C} (f : A -> B) (g : A -> C) (l : list A) :
  combine (map f l) (map g l) = map (fun x => (f x, g x)) l.
Proof. induction l as [|x l IH]; simpl; [reflexivity | now rewrite IH]. Qed.

Lemma softmax_map {A} (sc : A -> scalar) (l : list A) :
  softmax (map sc l)
  = map (fun u => Rdiv (Rexp (sc u)) (vsum (map (fun u => Rexp (sc u)) l))) l.
Proof. unfold softmax. now rewrite !map_map. Qed.

(** The attended value of a query depends on the keys and values as a
    multiset only. *)
Lemma weighted_sum_Permutation {A} (dh : nat) (sc : A -> scalar)
    (vf : A -> vec) (l l' : list A) :
  Permutation l l' ->
  weighted_sum dh (softmax (map sc l)) (map vf l)
  = weighted_sum dh (softmax (map sc l')) (map vf l').
Proof.
  intros HP. unfold weighted_sum. apply map_ext. intros c.
  rewrite !softmax_map, !combine_map_map, !map_map. cbn [fst snd].
  rewrite (vsum_Permutation (Permutation_map (fun u => Rexp (sc u)) HP)).
  apply vsum_Permutation. now apply Permutation_map.
Qed.

Lemma attend_token_Permutation (a : MultiheadAttention) (ps ps' : list qkv)
    (t : qkv) :
  Permutation ps ps' -> attend_token a ps t = attend_token a ps' t.
Proof.
  intros HP. unfold attend_token. do 2 f_equal.
  apply map_ext. intros h. rewrite !map_map.
  exact (weighted_sum_Permutation (head_dim a)
           (fun u => Rdiv (dot (head_slice (head_dim a) h (q_of t))
                               (head_slice (head_dim a) h (k_of u)))
                          (Rsqrt (of_nat (head_dim a))))
           (fun u => head_slice (head_dim a) h (v_of u)) HP).
Qed.

(** *** Rearranging a sequence *)

Lemma permute_seq_Permutation (pi : list nat) (x : mat) :
  Permutation pi (seq 0 (length x)) -> Permutation (permute_seq pi x) x.
Proof.
  intros HP. unfold permute_seq.
  apply Permutation_trans with (map (fun i => nth i x []) (seq 0 (length x))).
  - now apply Permutation_map.
  - pose proof (map_seq_nth (fun v : vec => v) [] x) as E. cbv beta in E.
    rewrite E, map_id. apply Permutation_refl.
Qed.

Lemma permute_seq_map (f : vec -> vec) (pi : list nat) (x : mat) :
  Permutation pi (seq 0 (length x)) ->
  permute_seq pi (map f x) = map f (permute_seq pi x).
Proof.
  intros HP. unfold permute_seq. rewrite map_map.
  apply map_ext_in. intros i Hi.
  apply (Permutation_in _ HP), in_seq in Hi.
  rewrite (nth_indep _ [] (f [])) by (rewrite length_map; lia).
  apply map_nth.
Qed.

Lemma permute_seq_shape (S D : nat) (pi : list nat) (x : mat) :
  shape2 S D x -> Permutation pi (seq 0 S) -> shape2 S D (permute_seq pi x).
Proof.
  intros [Hx Hxs] HP. unfold permute_seq. split.
  - rewrite length_map, (Permutation_length HP). apply length_seq.
  - apply Forall_shape_map. intros i Hi.
    apply (Permutation_in _ HP), in_seq in Hi.
    rewrite Forall_forall in Hxs. apply Hxs, nth_In. lia.
Qed.

(** *** The block as a function *)

Lemma mapM_ret_on {A B} (f : A -> M B) (F : A -> B) (l : list A) :
  (forall x g, In x l -> f x g = Ok (F x, g)) ->
  forall g, mapM f l g = Ok (map F l, g).
Proof.
  induction l as [|x l IH]; intros H g; simpl; [reflexivity|].
  unfold bind. rewrite H by (now left).
  rewrite IH; [reflexivity|]. intros y g' Hy. apply H. now right.
Qed.

Lemma in_proj_pure (E H : nat) (a : MultiheadAttention) (x : vec) :
  MultiheadAttention_ok E H a -> shape1 E x ->
  in_proj a x = Ok (project_qkv a x).
Proof.
  intros (HE & _) Hx. unfold in_proj, Linear_forward, project_qkv.
  cbn [lin_in_features]. unfold shape1 in Hx.
  now rewrite Hx, HE, Nat.eqb_refl.
Qed.

Lemma attention_seq_pure (E H : nat) (training : bool)
    (a : MultiheadAttention) (x : mat) (g : gen) :
  MultiheadAttention_ok E H a -> mha_dropout a = 0%Q ->
  Forall (shape1 E) x ->
  attention_seq training a x g
  = Ok (map (attend_token a (map (project_qkv a) x)) (map (project_qkv a) x), g).
Proof.
  intros Hok Hp Hx. unfold attention_seq.
  rewrite (rmapM_Ok_on (in_proj a) (project_qkv a)).
  2:{ intros v Hv. rewrite Forall_forall in Hx.
      eapply in_proj_pure; [exact Hok | now apply Hx]. }
  unfold bind at 1. unfold lift at 1.
  apply mapM_ret_on. intros t g0 _.
  unfold bind.
  rewrite (mapM_ret_on
             (fun h => attend training (mha_dropout a) (head_dim a)
                         (head_slice (head_dim a) h (q_of t))
                         (map (fun u => head_slice (head_dim a) h (k_of u))
                              (map (project_qkv a) x))
                         (map (fun u => head_slice (head_dim a) h (v_of u))
                              (map (project_qkv a) x)))
             (fun h => weighted_sum (head_dim a)
                         (softmax
                            (map (fun k =>
                                    Rdiv (dot (head_slice (head_dim a) h (q_of t)) k)
                                         (Rsqrt (of_nat (head_dim a))))
                                 (map (fun u => head_slice (head_dim a) h (k_of u))
                                      (map (project_qkv a) x))))
                         (map (fun u => head_slice (head_dim a) h (v_of u))
                              (map (project_qkv a) x)))).
  2:{ intros h g1 _. unfold attend, Dropout. rewrite Hp.
      now rewrite orb_true_r. }
  destruct Hok as (HE & HH & _ & Hd & _ & _ & (Hoi & _)).
  unfold lift, Linear_forward.
  rewrite (length_concat_shape (c := head_dim a)).
  2:{ apply Forall_shape_map. intros h _. unfold weighted_sum, shape1.
      now rewrite length_map, length_seq. }
  rewrite length_map, length_seq, Hoi.
  replace (mha_num_heads a * head_dim a) with E
    by (unfold head_dim; rewrite HE, HH; lia).
  rewrite Nat.eqb_refl. reflexivity.
Qed.

Lemma MultiheadSelfAttention_forward_pure (cfg : Config) (B S : nat)
    (training : bool) (m : MultiheadSelfAttention) (x : tensor3) (g : gen) :
  MultiheadSelfAttention_ok cfg m ->
  shape3 B S (embed_dim cfg) x ->
  MultiheadSelfAttention_forward training m x g = Ok (map (msa_seq m) x, g).
Proof.
  intros (Hn & Ha & Hp) [Hx Hxs]. unfold MultiheadSelfAttention_forward.
  rewrite (rmapM_Ok_on (rmapM (LayerNorm_forward (msa_norm m)))
                       (map (layer_norm (msa_norm m)))).
  2:{ intros s Hs. rewrite Forall_forall in Hxs. destruct (Hxs s Hs) as [_ Hss].
      apply rmapM_Ok_on. intros v Hv. rewrite Forall_forall in Hss.
      unfold LayerNorm_forward. destruct Hn as [Hw _].
      unfold shape1 in *. now rewrite (Hss v Hv), Hw, Nat.eqb_refl. }
  unfold bind, lift, MultiheadAttention_forward.
  rewrite (mapM_ret_on (attention_seq training (msa m))
             (fun n => map (attend_token (msa m) (map (project_qkv (msa m)) n))
                           (map (project_qkv (msa m)) n))).
  - now rewrite map_map.
  - intros n g0 Hn'. apply in_map_iff in Hn'. destruct Hn' as (s & <- & Hs).
    eapply attention_seq_pure; [exact Ha | exact Hp|].
    rewrite Forall_forall in Hxs. destruct (Hxs s Hs) as [_ Hss].
    apply Forall_shape_map. intros v Hv. rewrite Forall_forall in Hss.
    apply layer_norm_shape; [exact Hn | now apply Hss].
Qed.

Lemma msa_seq_permute (m : MultiheadSelfAttention) (pi : list nat) (x : mat) :
  Permutation pi (seq 0 (length x)) ->
  msa_seq m (permute_seq pi x) = permute_seq pi (msa_seq m x).
Proof.
  intros HP. unfold msa_seq. cbv zeta.
  rewrite !map_map.
  set (f := fun v => project_qkv (msa m) (layer_norm (msa_norm m) v)).
  rewrite (map_ext_in
             (fun v => attend_token (msa m) (map f (permute_seq pi x)) (f v))
             (fun v => attend_token (msa m) (map f x) (f v))).
  2:{ intros t _. apply attend_token_Permutation.
      apply Permutation_map. now apply permute_seq_Permutation. }
  symmetry. now apply permute_seq_map.
Qed.

Lemma msa_seq_shape (cfg : Config) (S : nat) (m : MultiheadSelfAttention)
    (x : mat) :
  MultiheadSelfAttention_ok cfg m -> length x = S ->
  shape2 S (embed_dim cfg) (msa_seq m x).
Proof.
  intros (_ & Ha & _) Hx. unfold msa_seq. cbv zeta. split.
  - now rewrite !length_map.
  - apply Forall_shape_map. intros t _.
    destruct Ha as (_ & _ & _ & _ & _ & _ & (_ & [Hw _] & Hb)).
    unfold attend_token, linear, shape1 in *.
    rewrite length_map, length_combine. lia.
Qed.

(** C9: over scalars whose addition is associative and commutative,
    [MultiheadSelfAttention] commutes with every rearrangement of the
    sequence positions: on an input of shape [B][S][D] the block returns
    some [y], and on the input with its positions rearranged by [pi] it
    returns [y] with its positions rearranged by [pi]. *)
Theorem MultiheadSelfAttention_equivariant (cfg : Config) (B S : nat)
    (training : bool) (m : MultiheadSelfAttention) (x : tensor3)
    (pi : list nat) (g : gen) :
  MultiheadSelfAttention_ok cfg m ->
  shape3 B S (embed_dim cfg) x ->
  Permutation pi (seq 0 S) ->
  exists y,
    MultiheadSelfAttention_forward training m x g = Ok (y, g)
    /\ shape3 B S (embed_dim cfg) y
    /\ MultiheadSelfAttention_forward training m (map (permute_seq pi) x) g
       = Ok (map (permute_seq pi) y, g).
Proof.
  intros Hok Hx HP. exists (map (msa_seq m) x).
  split; [eapply MultiheadSelfAttention_forward_pure; eassumption|].
  assert (Hx' : shape3 B S (embed_dim cfg) (map (permute_seq pi) x)).
  { destruct Hx as [Hl Hxs]. split; [now rewrite length_map|].
    apply Forall_forall. intros s Hs. apply in_map_iff in Hs.
    destruct Hs as (s0 & <- & Hs0). rewrite Forall_forall in Hxs.
    apply permute_seq_shape; [now apply Hxs | exact HP]. }
  split.
  - destruct Hx as [Hl Hxs]. split; [now rewrite length_map|].
    apply Forall_forall. intros s Hs. apply in_map_iff in Hs.
    destruct Hs as (s0 & <- & Hs0). rewrite Forall_forall in Hxs.
    apply msa_seq_shape; [exact Hok | apply (Hxs s0 Hs0)].
  - rewrite (MultiheadSelfAttention_forward_pure training g Hok Hx').
    rewrite !map_map. do 2 f_equal.
    apply map_ext_in. intros s Hs.
    destruct Hx as [_ Hxs]. rewrite Forall_forall in Hxs.
    destruct (Hxs s Hs) as [Hls _].
    apply msa_seq_permute. now rewrite Hls.
Qed.

End Equivariance.

(** ** Concrete runs *)

Lemma fx_add_comm (a b : @scalar FX) : Radd a b = Radd b a.
Proof. destruct a, b; simpl; try reflexivity. f_equal. lia. Qed.

Lemma fx_add_assoc (a b c : @scalar FX) :
  Radd a (Radd b c) = Radd (Radd a b) c.
Proof. destruct a, b, c; simpl; try reflexivity. f_equal. lia. Qed.

Lemma fx_ordered_row (row : @vec FX) :
  Forall (fun a => a <> NaN) row -> @ordered_row FX row.
Proof.
  intros H. rewrite Forall_forall in H. repeat split.
  - intros a Ha. destruct a as [x|]; simpl; [apply Z.ltb_irrefl | reflexivity].
  - intros a b c Ha Hb Hc. destruct a, b, c; simpl; try discriminate.
    rewrite !Z.ltb_lt. lia.
  - intros a b c Ha Hb Hc. pose proof (H b Hb) as Hn.
    destruct a, b, c; simpl; try discriminate; try congruence.
    rewrite !Z.ltb_lt. lia.
Qed.

Lemma half_in_range : (0 <= 1 # 2 <= 1)%Q.
Proof. unfold Qle; simpl; lia. Qed.

Lemma tiny_vit_ok : @ViT_ok FX tiny_config 4 tiny_heap tiny_vit.
Proof.
  destruct (@construct_returns FX LCG tiny_config half_in_range) with (g := 1)
    as (r & g' & E & Hok); try (simpl; lia); try reflexivity.
  pose proof tiny_model_built as Hb. unfold tiny_model in Hb.
  rewrite E in Hb. injection Hb as Hr Hg. subst r. exact Hok.
Qed.

(** The forward pass fails on an image whose number of patches differs from
    [num_patches], although its height and width are multiples of the patch
    size. *)
Lemma ViT_forward_rejects_other_sizes :
  tiny_model = Ok tiny_built
  /\ @shape4 FX 1 (num_channels tiny_config) 1 1 one_pixel
  /\ 1 mod patch_size tiny_config = 0
  /\ @ViT_forward FX LCG false tiny_heap tiny_vit one_pixel 0
     = Raise RuntimeError.
Proof.
  split; [exact tiny_model_built|].
  split; [repeat constructor|].
  split; [reflexivity|].
  vm_compute. reflexivity.
Qed.

Lemma ViT_forward_stages_witness :
  exists y g',
    @ViT_forward FX LCG false tiny_heap tiny_vit tiny_batch 0 = Ok (y, g')
    /\ @shape2 FX 2 2 y.
Proof.
  destruct (@ViT_forward_stages FX LCG tiny_config 4 tiny_heap tiny_vit false
              2 2 2 tiny_batch 0) as (y & g' & E & _ & Hy);
    try (simpl; lia); try reflexivity.
  - exact tiny_vit_ok.
  - repeat constructor.
  - exists y, g'. split; [exact E | exact Hy].
Defined.

(** Construction accepts a configuration whose [image_size] is not a
    multiple of [patch_size], and the model it returns classifies a 3x3
    image without any error. *)
Lemma construct_accepts_indivisible :
  image_size odd_config mod patch_size odd_config <> 0
  /\ @construct FX LCG odd_config 1 = Ok odd_built
  /\ @shape4 FX 1 (num_channels odd_config)
              (image_size odd_config) (image_size odd_config) odd_batch
  /\ exists y g',
       @ViT_forward FX LCG false odd_heap odd_vit odd_batch 0 = Ok (y, g')
       /\ @shape2 FX 1 (num_classes odd_config) y.
Proof.
  split; [discriminate|].
  split; [reflexivity|].
  split; [repeat constructor|].
  eexists. eexists. split; [vm_compute; reflexivity | repeat constructor].
Qed.

Lemma construct_checks_heads_only_witness :
  raises (@construct FX LCG (small_config 1 3 2 1 (1 # 2))) AssertionError
  /\ returns (@construct FX LCG tiny_config)
              (fun r => ViT_ok tiny_config 4 (snd r) (fst r)).
Proof.
  split.
  - apply (@construct_checks_heads_only FX LCG (small_config 1 3 2 1 (1 # 2)));
      try (simpl; lia); try (unfold Qle; simpl; lia).
  - apply (@construct_checks_heads_only FX LCG tiny_config);
      try (simpl; lia); try (unfold Qle; simpl; lia); reflexivity.
Defined.

Lemma PatchEmbedding_output_shape_witness :
  exists y,
    PatchEmbedding_forward (patch_embedding tiny_vit) tiny_batch = Ok y
    /\ @shape3 FX 2 4 2 y.
Proof.
  destruct (@PatchEmbedding_output_shape FX tiny_config (patch_embedding tiny_vit)
              2 2 2 tiny_batch) as (y & E & Hy & _);
    try (simpl; lia); try reflexivity.
  - apply tiny_vit_ok.
  - repeat constructor.
  - exists y. split; [exact E | exact Hy].
Defined.


Lemma test_loop_accuracy_witness :
  Forall (batch_ok four_net) four_examples
  /\ test_loop four_net four_examples = Ok 75%Q.
Proof.
  assert (H : Forall (batch_ok four_net) four_examples).
  { repeat constructor. exists four_logits.
    repeat split; try reflexivity. repeat constructor; discriminate. }
  split; [exact H|].
  rewrite (test_loop_accuracy H). reflexivity.
Defined.



(** A test root without an image stops the script while the module is
    loaded, with the exception of [ImageFolder]. *)
Lemma test_root_without_image :
  no_image (test_dataroot no_test_image)
  /\ load_module tiny_config no_test_image = Raise FileNotFoundError.
Proof. split; reflexivity. Qed.

Lemma empty_test_data_is_refused_witness :
  load_module tiny_config no_test_image = Raise FileNotFoundError
  /\ exists np d,
       load_module tiny_config small_data = Ok (np, d)
       /\ exists st q,
            test_counts (@eval_forward FX LCG tiny_heap tiny_vit 0)
                        (test_dataloader d) = Ok st
            /\ total st = 3
            /\ @main_test FX LCG tiny_heap tiny_vit 0 (test_dataloader d)
               = Ok q.
Proof.
  split.
  - apply (@empty_test_data_is_refused FX (@tensor3 FX) tiny_config
             no_test_image); [reflexivity | simpl; lia].
  - destruct (@load_module (@tensor3 FX) tiny_config small_data)
      as [[np d]|] eqn:E; [|discriminate E].
    exists np, d. split; [reflexivity|].
    destruct (@empty_test_data_is_refused FX (@tensor3 FX) tiny_config
                small_data) as [_ H].
    destruct (H np d E) as (_ & _ & _ & Hrun).
    destruct (Hrun (@eval_forward FX LCG tiny_heap tiny_vit 0))
      as [Hdone Hgoes].
    destruct Hgoes as (st & E1).
    + injection E as _ <-. cbn [test_dataloader].
      repeat constructor;
        (eapply (@eval_forward_batch_ok FX LCG tiny_config);
         try (simpl; lia); try reflexivity;
         [exact tiny_vit_ok | repeat constructor]).
    + destruct (Hdone st E1) as (E2 & _ & q & E3).
      exists st, q. split; [exact E1|]. split; [|exact E3].
      rewrite E2. injection E as _ <-. reflexivity.
Defined.

(** In binary64 arithmetic the block is not equivariant to the last bit:
    on three tokens and on the same tokens rotated it adds up the same
    attended values in a different order, and the sums differ. *)
Lemma MultiheadSelfAttention_not_equivariant_in_binary64 :
  @MultiheadSelfAttention_ok F64 tiny_config uniform_attention
  /\ @shape3 F64 1 3 (embed_dim tiny_config) float_tokens
  /\ Permutation rotation (seq 0 3)
  /\ @MultiheadSelfAttention_forward F64 F64_LCG true uniform_attention
       float_tokens 0 = Ok float_out
  /\ @MultiheadSelfAttention_forward F64 F64_LCG true uniform_attention
       (map (permute_seq rotation) float_tokens) 0 = Ok float_out_rotated
  /\ fst float_out_rotated <> map (permute_seq rotation) (fst float_out).
Proof.
  split.
  { split; [split; reflexivity|]. split; [|reflexivity].
    repeat split; try reflexivity; try (simpl; lia); repeat constructor. }
  split; [repeat constructor|].
  split.
  { unfold rotation. simpl.
    apply Permutation_trans with [0; 2; 1]; [apply perm_swap|].
    apply perm_skip, perm_swap. }
  split; [vm_compute; reflexivity|].
  split; [vm_compute; reflexivity|].
  intros H.
  apply (f_equal (fun t => PrimFloat.ltb
                             (first_entry
                                (map (permute_seq rotation) (fst float_out)))
                             (first_entry t))) in H.
  vm_compute in H. discriminate H.
Qed.

Lemma MultiheadSelfAttention_equivariant_witness :
  exists m g',
    @MultiheadSelfAttention_init FX LCG tiny_config 1 = Ok (m, g')
    /\ exists y,
         @MultiheadSelfAttention_forward FX LCG true m three_tokens 0
         = Ok (y, 0)
         /\ @MultiheadSelfAttention_forward FX LCG true m
              (map (permute_seq rotation) three_tokens) 0
            = Ok (map (permute_seq rotation) y, 0).
Proof.
  destruct (@MultiheadSelfAttention_init_ok FX LCG tiny_config) with (g := 1)
    as (m & g' & E & Hok); try (simpl; lia); try reflexivity.
  exists m, g'. split; [exact E|].
  destruct (@MultiheadSelfAttention_equivariant FX LCG fx_add_comm fx_add_assoc
              tiny_config 1 3 true m three_tokens rotation 0 Hok)
    as (y & E1 & _ & E2).
  - repeat constructor.
  - unfold rotation. simpl.
    apply Permutation_trans with [0; 2; 1]; [apply perm_swap|].
    apply perm_skip, perm_swap.
  - exists y. split; [exact E1 | exact E2].
Defined.

Lemma prediction_breaks_ties_low_witness :
  @argmax FX tied_row = 1
  /\ @is_max_at FX tied_row 3
  /\ test_counts (fun _ : unit => Ok [tied_row]) [(tt, [1%Z])]
     = Ok {| correct := 1; total := 1 |}.
Proof.
  destruct (@prediction_breaks_ties_low FX unit (fun _ => Ok [tied_row]) tt
              tied_row 1%Z) as (H1 & H2 & H3).
  - apply fx_ordered_row. repeat constructor; discriminate.
  - discriminate.
  - reflexivity.
  - split; [reflexivity|]. split; [|exact H3].
    split; [simpl; lia|]. intros k Hk.
    do 4 (destruct k as [|k]; [reflexivity|]). simpl in Hk. lia.
Defined.

(** * Further properties of the script *)

(** ** The test loop: counters and batching *)

Section TestLoopMore.

Context {SC : Scalar}.

Lemma filter_length_le {A} (t : A -> bool) (l : list A) :
  length (filter t l) <= length l.
Proof.
  induction l as [|x l IH]; simpl; [lia|]. destruct (t x); simpl; lia.
Qed.

Lemma true_div_bounds (c t : nat) (q : Q) :
  c <= t -> true_div (100 * c) t = Ok q -> (0 <= q <= 100)%Q.
Proof.
  intros Hct. unfold true_div. destruct (t =? 0) eqn:E; [discriminate|].
  apply Nat.eqb_neq in E. remember (100 * c) as m eqn:Hm.
  intros H.
  assert (Hq : q = Qred (Z.of_nat m # Pos.of_nat t)) by congruence.
  clear H. subst q.
  assert (Ht : Z.pos (Pos.of_nat t) = Z.of_nat t).
  { destruct t; [lia|]. rewrite <- Pos.of_nat_succ, Zpos_P_of_succ_nat. lia. }
  split.
  - apply Qle_trans with (Z.of_nat m # Pos.of_nat t)%Q.
    + unfold Qle. cbn [Qnum Qden]. lia.
    + apply Qle_lteq. right. symmetry. apply Qred_correct.
  - apply Qle_trans with (Z.of_nat m # Pos.of_nat t)%Q.
    + apply Qle_lteq. right. apply Qred_correct.
    + unfold Qle. cbn [Qnum Qden]. rewrite Ht. lia.
Qed.

(** X12: when the model answers every batch with one non-empty row of logits
    per label, the counters of the test loop never show more correct
    examples than examples, and the accuracy it prints lies between 0 and
    100. *)
Theorem test_accuracy_bounded (X : Type) (visual_transformer : X -> result mat)
    (test_dataloader : list (batch X)) :
  Forall (batch_ok visual_transformer) test_dataloader ->
  (exists st, test_counts visual_transformer test_dataloader = Ok st
              /\ correct st <= total st)
  /\ (forall q, test_loop visual_transformer test_dataloader = Ok q ->
                (0 <= q <= 100)%Q).
Proof.
  intros H. unfold test_loop, test_counts.
  rewrite test_counts_from by exact H. simpl.
  pose proof (filter_length_le is_correct
                (examples visual_transformer test_dataloader)) as Hle.
  split.
  - eexists. split; [reflexivity|]. exact Hle.
  - intros q Hq. eapply true_div_bounds; eassumption.
Qed.

Lemma combine_app_eq {A B} (a1 a2 : list A) (b1 b2 : list B) :
  length a1 = length b1 ->
  combine (a1 ++ a2) (b1 ++ b2) = combine a1 b1 ++ combine a2 b2.
Proof.
  revert b1. induction a1 as [|x a1 IH]; intros [|y b1] H; simpl in *;
    try discriminate; [reflexivity|].
  f_equal. apply IH. lia.
Qed.

Lemma per_example_batch_ok (X : Type) (f : X -> vec) (b : batch (list X)) :
  (forall x, f x <> []) -> length (fst b) = length (snd b) ->
  batch_ok (per_example f) b.
Proof.
  intros Hf Hl. exists (map f (fst b)).
  split; [reflexivity|]. split; [now rewrite length_map|].
  apply Forall_forall. intros row Hrow. apply in_map_iff in Hrow.
  destruct Hrow as (x & <- & _). apply Hf.
Qed.

Lemma examples_per_example (X : Type) (f : X -> vec)
    (l : list (batch (list X))) :
  Forall (fun b => length (fst b) = length (snd b)) l ->
  examples (per_example f) l
  = combine (map f (concat (map fst l))) (concat (map snd l)).
Proof.
  induction 1 as [|b l Hb _ IH]; simpl; [reflexivity|].
  rewrite map_app, combine_app_eq by (now rewrite length_map).
  f_equal. exact IH.
Qed.

(** X13: for a model that answers every image on its own, the accuracy depends
    on the examples only, not on how the loader cuts them into batches. *)
Theorem test_accuracy_rebatching (X : Type) (f : X -> vec)
    (loader1 loader2 : list (batch (list X))) :
  (forall x, f x <> []) ->
  Forall (fun b => length (fst b) = length (snd b)) loader1 ->
  Forall (fun b => length (fst b) = length (snd b)) loader2 ->
  concat (map fst loader1) = concat (map fst loader2) ->
  concat (map snd loader1) = concat (map snd loader2) ->
  test_loop (per_example f) loader1 = test_loop (per_example f) loader2.
Proof.
  intros Hf H1 H2 Ei El.
  assert (Hok : forall l,
             Forall (fun b : batch (list X) => length (fst b) = length (snd b)) l ->
             test_loop (per_example f) l
             = spec_accuracy (examples (per_example f) l)).
  { intros l Hl. unfold test_loop, test_counts, spec_accuracy.
    rewrite test_counts_from; [reflexivity|].
    eapply Forall_impl; [|exact Hl].
    intros b Hb. now apply per_example_batch_ok. }
  rewrite (Hok loader1 H1), (Hok loader2 H2).
  rewrite !examples_per_example by assumption.
  now rewrite Ei, El.
Qed.

End TestLoopMore.

(** ** The training loop: reports *)

Section TrainReports.

Context {SC : Scalar}.
Variable X : Type.
Variable state : Type.
Variable zero_grad : state -> state.
Variable forward_train : state -> X -> result (mat * state).
Variable criterion : mat -> list Z -> result scalar.
Variable backward : state -> scalar -> state.
Variable optimiser_step : state -> state.

Hypothesis forward_returns :
  forall p x, exists o p', forward_train p x = Ok (o, p').
Hypothesis criterion_returns :
  forall o l, exists loss, criterion o l = Ok loss.






End TrainReports.

(** ** Construction: outcome, copies and the unused layer *)

Section ConstructorsMore.

Context {SC : Scalar} {RNG : Rng SC}.

Lemma MultiheadAttention_init_value (E H : nat) (p : Q) :
  E = 0 \/ H = 0 -> raises (MultiheadAttention_init E H p) ValueError.
Proof.
  intros Hz g. unfold MultiheadAttention_init.
  replace ((E =? 0) || (H =? 0)) with true; [reflexivity|].
  symmetry. apply orb_true_iff.
  destruct Hz as [-> | ->]; [left | right]; reflexivity.
Qed.

Lemma ViT_init_dropout (cfg : Config) (np : nat) (h : heap) :
  ~ (0 <= dropout_size cfg <= 1)%Q -> raises (ViT_init cfg np h) ValueError.
Proof.
  intros Hq. unfold ViT_init.
  eapply raises_bind_r.
  { unfold PatchEmbedding_init.
    eapply returns_bind; [apply Conv2d_init_ok|]. intros cv _.
    apply returns_ret with (P := fun _ => True). exact I. }
  intros pe _.
  eapply raises_bind_r; [apply sample_tensor3_ok|]. intros cls _.
  eapply raises_bind_r; [apply sample_tensor3_ok|]. intros pos _.
  apply raises_bind_l. intros g. now rewrite (Dropout_init_value Hq).
Qed.

(** X1: the constant [num_patches] (line 18) and [ViT(workers)] fail in
    exactly four ways, tried in this order: [patch_size] is 0
    ([ZeroDivisionError], at line 18); the dropout probability is outside
    [0, 1] ([ValueError] of [nn.Dropout], line 168); [embed_dim] or
    [num_heads] is 0 ([ValueError] of [nn.MultiheadAttention]); [embed_dim]
    is not a multiple of [num_heads] ([AssertionError]).  For every other
    configuration [ViT(workers)] returns a model with well-shaped
    parameters.  The data sets and loaders of lines 28-48 are not part of
    this statement. *)
Theorem construct_outcome (cfg : Config) :
  match construct_error cfg with
  | Some e => raises (construct cfg) e
  | None =>
      returns (construct cfg)
              (fun r => ViT_ok cfg ((image_size cfg / patch_size cfg) ^ 2)
                               (snd r) (fst r))
  end.
Proof.
  unfold construct_error.
  destruct (patch_size cfg =? 0) eqn:P0.
  { intros g. unfold construct, num_patches. now rewrite P0. }
  apply Nat.eqb_neq in P0.
  destruct (Qle_bool 0 (dropout_size cfg) && Qle_bool (dropout_size cfg) 1)
    eqn:Q0; cbn [negb].
  2:{ unfold construct, num_patches.
      destruct (patch_size cfg =? 0) eqn:P1; [apply Nat.eqb_eq in P1; lia|].
      eapply raises_bind_r;
        [eapply (returns_lift (fun _ => True)); [reflexivity | exact I]|].
      intros np _. apply ViT_init_dropout. intros [H0 H1].
      apply Qle_bool_iff in H0, H1. rewrite H0, H1 in Q0. discriminate. }
  apply andb_true_iff in Q0. destruct Q0 as [H0 H1].
  apply Qle_bool_iff in H0, H1.
  assert (Hq : (0 <= dropout_size cfg <= 1)%Q) by (split; assumption).
  destruct ((embed_dim cfg =? 0) || (num_heads cfg =? 0)) eqn:Z0.
  { apply orb_true_iff in Z0. rewrite !Nat.eqb_eq in Z0.
    apply construct_raises; [exact Hq | lia |].
    now apply MultiheadAttention_init_value. }
  apply orb_false_iff in Z0. rewrite !Nat.eqb_neq in Z0. destruct Z0 as [E0 H0'].
  destruct (embed_dim cfg mod num_heads cfg =? 0) eqn:M0; cbn [negb].
  - apply Nat.eqb_eq in M0. apply construct_returns; solve [assumption | lia].
  - apply Nat.eqb_neq in M0.
    apply construct_raises; [exact Hq | lia |].
    apply MultiheadAttention_init_assert; lia.
Qed.

(** X2: the stack starts as [num_layers] exact copies of one layer: the heap
    grows by [num_layers + 1] layer objects, and every layer of the stack
    holds the parameter values of the layer built first.  The configuration
    is one the layer's constructor accepts. *)
Theorem encoder_layers_start_equal (cfg : Config) (h0 : heap) :
  (0 <= dropout_size cfg <= 1)%Q ->
  0 < embed_dim cfg -> 0 < num_heads cfg ->
  embed_dim cfg mod num_heads cfg = 0 ->
  returns (TransformerEncoder_init cfg h0) (fun r =>
    length (snd r) = length h0 + num_layers cfg + 1
    /\ (forall a l, deref h0 a = Ok l -> deref (snd r) a = Ok l)
    /\ exists l,
         deref (snd r) (transformer_encoder_layer (fst r)) = Ok l
         /\ Forall (fun a => deref (snd r) a = Ok l)
                   (layers (full_transformer_encoder (fst r)))).
Proof.
  intros Hq HE HH Hm.
  eapply returns_weaken; [now apply TransformerEncoder_init_spec|].
  intros [te h] (l & _ & _ & _ & _ & _ & Hh & Ht & Hls & _).
  cbn [fst snd] in *. subst h. split; [|split].
  - rewrite length_app. simpl. rewrite repeat_length. lia.
  - intros a l0 Ha. now apply deref_app_l.
  - exists l. split.
    + rewrite Ht. unfold deref.
      rewrite nth_error_app2, Nat.sub_diag by lia. reflexivity.
    + rewrite Hls. apply Forall_forall. intros a Ha. apply in_seq in Ha.
      replace (h0 ++ l :: repeat l (num_layers cfg))
        with ((h0 ++ [l]) ++ repeat l (num_layers cfg))
        by (now rewrite <- app_assoc).
      apply deref_clone. rewrite length_app. simpl. lia.
Qed.

Lemma encoder_forward_ignores (training : bool) (h : heap)
    (te : TransformerEncoder) (t : addr) (l' : TransformerEncoderLayer)
    (x : tensor3) (g : gen) :
  ~ In t (layers (full_transformer_encoder te)) ->
  TransformerEncoder_forward training (heap_update h t l') te x g
  = TransformerEncoder_forward training h te x g.
Proof.
  intros Hn. unfold TransformerEncoder_forward, nnTransformerEncoder_forward.
  unfold bind at 1 3.
  rewrite (foldM_ext_in
             (fun out a =>
                bind (lift (deref (heap_update h t l') a))
                     (fun l => TransformerEncoderLayer_forward training l out))
             (fun out a =>
                bind (lift (deref h a))
                     (fun l => TransformerEncoderLayer_forward training l out))).
  - reflexivity.
  - intros a Ha out g0. rewrite deref_update_other; [reflexivity|].
    intros ->. contradiction.
Qed.

Lemma construct_built (cfg : Config) :
  (0 <= dropout_size cfg <= 1)%Q ->
  0 < patch_size cfg -> 0 < embed_dim cfg -> 0 < num_heads cfg ->
  embed_dim cfg mod num_heads cfg = 0 ->
  returns (construct cfg)
          (fun r => encoder_built cfg [] (transformer_encoder (fst r)) (snd r)).
Proof.
  intros Hq HP HE HH Hm. unfold construct, num_patches.
  destruct (patch_size cfg =? 0) eqn:P0; [apply Nat.eqb_eq in P0; lia|].
  eapply returns_bind;
    [eapply (returns_lift (fun _ => True)); [reflexivity | exact I]|].
  intros np _.
  eapply returns_weaken; [now apply ViT_init_ok|].
  intros r H. apply H.
Qed.

(** X3: the layer object kept in [self.transformer_encoder_layer] is only the
    original of the copies: whatever values its parameters are given, the
    logits of the model stay the same, in both modes.  The configuration is
    one the constructors accept. *)
Theorem template_layer_is_unused (cfg : Config) :
  (0 <= dropout_size cfg <= 1)%Q ->
  0 < patch_size cfg -> 0 < embed_dim cfg -> 0 < num_heads cfg ->
  embed_dim cfg mod num_heads cfg = 0 ->
  returns (construct cfg) (fun r =>
    let v := fst r in
    let h := snd r in
    let t := transformer_encoder_layer (transformer_encoder v) in
    ~ In t (layers (full_transformer_encoder (transformer_encoder v)))
    /\ (exists l, deref h t = Ok l)
    /\ forall l' training input g,
         ViT_forward training (heap_update h t l') v input g
         = ViT_forward training h v input g).
Proof.
  intros Hq HP HE HH Hm.
  eapply returns_weaken; [now apply construct_built|].
  intros [v h] (l & _ & _ & _ & _ & _ & Hh & Ht & Hls & _).
  cbn [fst snd] in *. cbv zeta.
  assert (Hn : ~ In (transformer_encoder_layer (transformer_encoder v))
                    (layers (full_transformer_encoder (transformer_encoder v)))).
  { rewrite Ht, Hls. intros Hin. apply in_seq in Hin. simpl in Hin. lia. }
  split; [exact Hn|]. split.
  - exists l. rewrite Ht, Hh. reflexivity.
  - intros l' training input g. unfold ViT_forward, bind.
    destruct (lift (expand_batch (length input) (prepend_embed_token v)) g)
      as [[c g1]|]; [|reflexivity].
    destruct (lift (PatchEmbedding_forward (patch_embedding v) input) g1)
      as [[e g2]|]; [|reflexivity].
    destruct (lift (cat_dim1 c e) g2) as [[w g3]|]; [|reflexivity].
    destruct (lift (badd3 w (position_embed_token v)) g3)
      as [[a g4]|]; [|reflexivity].
    destruct (Dropout each3 training (embedding_dropout v) a g4)
      as [[d g5]|]; [|reflexivity].
    now rewrite encoder_forward_ignores.
Qed.

(** X4: the encoder that [TransformerEncoder.__init__] builds keeps the shape
    of whatever sequence it is given: [B][S][embed_dim] in,
    [B][S][embed_dim] out, for every batch size and sequence length, in both
    modes.  The configuration is one the layer's constructor accepts. *)
Theorem built_encoder_keeps_shape (cfg : Config) (h0 : heap) :
  (0 <= dropout_size cfg <= 1)%Q ->
  0 < embed_dim cfg -> 0 < num_heads cfg ->
  embed_dim cfg mod num_heads cfg = 0 ->
  returns (TransformerEncoder_init cfg h0) (fun r =>
    forall training B S x,
      shape3 B S (embed_dim cfg) x ->
      returns (TransformerEncoder_forward training (snd r) (fst r) x)
              (shape3 B S (embed_dim cfg))).
Proof.
  intros Hq HE HH Hm.
  eapply returns_weaken; [now apply TransformerEncoder_init_spec|].
  intros [te h] Hb training B S x Hx. cbn [fst snd] in *.
  apply TransformerEncoder_forward_shape; [|exact Hx].
  now apply encoder_built_ok with (h := h0).
Qed.


End ConstructorsMore.

(** ** Shape errors and the pixels that count *)

Section ShapesMore.

Context {SC : Scalar} {RNG : Rng SC}.

Lemma rmapM_raises {A B} (f : A -> result B) (e : error) (l : list A) :
  (forall x, In x l -> f x = Raise e \/ exists y, f x = Ok y) ->
  Exists (fun x => f x = Raise e) l ->
  rmapM f l = Raise e.
Proof.
  intros Hall Hex. induction Hex as [x l Hx | x l _ IH]; simpl.
  - now rewrite Hx.
  - destruct (Hall x (or_introl eq_refl)) as [-> | (y & ->)]; [reflexivity|].
    simpl. rewrite IH; [reflexivity|]. intros z Hz. apply Hall. now right.
Qed.

Lemma head_row_outcome (cfg : Config) (m : MLPHead) (v : vec) :
  MLPHead_ok cfg m ->
  if length v =? embed_dim cfg
  then exists y, rbind (LayerNorm_forward (head_norm m) v)
                       (Linear_forward (head_linear m)) = Ok y
                 /\ shape1 (num_classes cfg) y
  else rbind (LayerNorm_forward (head_norm m) v)
             (Linear_forward (head_linear m)) = Raise RuntimeError.
Proof.
  intros [Hn Hlin]. destruct (length v =? embed_dim cfg) eqn:E.
  - apply Nat.eqb_eq in E.
    destruct (LayerNorm_forward_shape Hn (x := v) E) as (n & -> & Hnv). simpl.
    exact (Linear_forward_shape Hlin Hnv).
  - unfold LayerNorm_forward. destruct Hn as [Hw _]. unfold shape1 in Hw.
    now rewrite Hw, E.
Qed.

(** X6: [MLPHead] accepts exactly the inputs whose rows have [embed_dim]
    features: on those it returns one row of [num_classes] logits per input
    row; a single row of another length makes the whole call raise a shape
    error. *)
Theorem MLPHead_accepts_exactly (cfg : Config) (m : MLPHead) (x : mat) :
  MLPHead_ok cfg m ->
  (Forall (shape1 (embed_dim cfg)) x ->
   exists y, MLPHead_forward m x = Ok y
             /\ shape2 (length x) (num_classes cfg) y)
  /\ (~ Forall (shape1 (embed_dim cfg)) x ->
      MLPHead_forward m x = Raise RuntimeError).
Proof.
  intros Hok. split.
  - intros Hx. apply MLPHead_forward_shape; [exact Hok | now split].
  - intros Hx. unfold MLPHead_forward. apply rmapM_raises.
    + intros v _. pose proof (head_row_outcome v Hok) as Hv.
      destruct (length v =? embed_dim cfg).
      * destruct Hv as (y & Ey & _). right. now exists y.
      * now left.
    + apply neg_Forall_Exists_neg in Hx.
      2:{ intros v. unfold shape1. apply Nat.eq_dec. }
      eapply Exists_impl; [|exact Hx].
      intros v Hv. pose proof (head_row_outcome v Hok) as Hr.
      destruct (length v =? embed_dim cfg) eqn:E; [|exact Hr].
      apply Nat.eqb_eq in E. contradiction.
Qed.

(** *** Patch embedding of images of any size *)

Lemma conv_out_le (H P : nat) :
  0 < P -> P <= H ->
  0 < conv_out H P P /\ conv_out H P P * P <= H
  /\ conv_out (conv_out H P P * P) P P = conv_out H P P.
Proof.
  intros HP HH. unfold conv_out.
  pose proof (Nat.Div0.mul_div_le (H - P) P) as Hd.
  split; [lia|]. split; [nia|].
  replace (((H - P) / P + 1) * P - P) with ((H - P) / P * P) by nia.
  now rewrite Nat.div_mul by lia.
Qed.

Lemma PatchEmbedding_forward_floor (cfg : Config) (pe : PatchEmbedding)
    (B H W : nat) (input : tensor4) :
  0 < patch_size cfg -> 0 < num_channels cfg -> 0 < embed_dim cfg ->
  Conv2d_ok (num_channels cfg) (embed_dim cfg) (patch_size cfg) (pe_conv pe) ->
  patch_size cfg <= H -> patch_size cfg <= W ->
  shape4 B (num_channels cfg) H W input ->
  exists y,
    PatchEmbedding_forward pe input = Ok y
    /\ shape3 B (conv_out H (patch_size cfg) (patch_size cfg)
                 * conv_out W (patch_size cfg) (patch_size cfg))
              (embed_dim cfg) y.
Proof.
  intros HP HC HD Hcv HH HW [Hin Hins].
  unfold PatchEmbedding_forward, Conv2d_forward.
  destruct (@rmapM_returns _ _ (conv2d_image (pe_conv pe))
              (shape3 (num_channels cfg) H W)
              (shape3 (embed_dim cfg)
                      (conv_out H (patch_size cfg) (patch_size cfg))
                      (conv_out W (patch_size cfg) (patch_size cfg)))
              input) as (ys & -> & Hl & Hq); [|exact Hins|].
  { intros img Himg. eapply conv2d_image_shape; eassumption. }
  simpl. eexists. split; [reflexivity|].
  unfold permute_0_2_1, Flatten_2_3. split.
  - rewrite !length_map. exact (eq_trans Hl Hin).
  - rewrite map_map. apply Forall_forall. intros m Hm.
    apply in_map_iff in Hm. destruct Hm as (y & <- & Hy).
    rewrite Forall_forall in Hq.
    apply transpose_shape; [exact HD|]. apply flatten_shape. now apply Hq.
Qed.

Lemma firstn_skipn_firstn {A} (k r m : nat) (l : list A) :
  r + k <= m -> firstn k (skipn r (firstn m l)) = firstn k (skipn r l).
Proof.
  intros H. rewrite skipn_firstn_comm, firstn_firstn.
  now replace (Nat.min k (m - r)) with k by lia.
Qed.

Lemma combine_map_r {A B C} (f : B -> C) (a : list A) (b : list B) :
  combine a (map f b) = map (fun ab => (fst ab, f (snd ab))) (combine a b).
Proof.
  revert b. induction a as [|x a IH]; intros [|y b]; simpl; try reflexivity.
  now rewrite IH.
Qed.

Lemma window_dot_crop (k r c Hc Wc : nat) (w img : tensor3) :
  r + k <= Hc -> c + k <= Wc ->
  window_dot k r c w (crop Hc Wc img) = window_dot k r c w img.
Proof.
  intros Hr Hcw. unfold window_dot, crop.
  rewrite combine_map_r, map_map. f_equal.
  apply map_ext. intros [wc ch]. cbn [fst snd]. f_equal.
  rewrite skipn_map, firstn_map, combine_map_r, map_map.
  rewrite firstn_skipn_firstn by exact Hr.
  apply map_ext. intros [wr row]. cbn [fst snd].
  now rewrite firstn_skipn_firstn by exact Hcw.
Qed.

Lemma firstn_incl {A} (n : nat) (l : list A) (x : A) :
  In x (firstn n l) -> In x l.
Proof.
  intros Hx. rewrite <- (firstn_skipn n l). apply in_or_app. now left.
Qed.

Lemma crop_shape (C H W Hc Wc : nat) (img : tensor3) :
  Hc <= H -> Wc <= W -> shape3 C H W img -> shape3 C Hc Wc (crop Hc Wc img).
Proof.
  intros HH HW [Hi His]. unfold crop. split; [now rewrite length_map|].
  apply Forall_forall. intros m Hm. apply in_map_iff in Hm.
  destruct Hm as (ch & <- & Hch). rewrite Forall_forall in His.
  destruct (His ch Hch) as [Hl Hrows]. split.
  - rewrite length_map, length_firstn. apply Nat.min_l.
    exact (eq_ind_r (fun n => Hc <= n) HH Hl).
  - apply Forall_shape_map. intros row Hrow. unfold shape1.
    rewrite length_firstn. rewrite Forall_forall in Hrows.
    pose proof (Hrows row (firstn_incl _ _ _ Hrow)) as Hw.
    unfold shape1 in Hw. apply Nat.min_l.
    exact (eq_ind_r (fun n => Wc <= n) HW Hw).
Qed.

Lemma conv2d_image_value (C D P H W : nat) (cv : Conv2d) (img : tensor3) :
  Conv2d_ok C D P cv -> 0 < C -> 0 < P -> P <= H -> P <= W ->
  shape3 C H W img ->
  conv2d_image cv img
  = Ok (map (fun wb =>
               map (fun i =>
                      map (fun j =>
                             Radd (window_dot P (i * P) (j * P) (fst wb) img)
                                  (snd wb))
                          (seq 0 (conv_out W P P)))
                   (seq 0 (conv_out H P P)))
            (combine (conv_weight cv) (conv_bias cv))).
Proof.
  intros (Hc & Hk & Hs & _ & _) HC HP HH HW [Hi His].
  unfold conv2d_image. rewrite Hc, Hk, Hs.
  destruct img as [|ch img]; [simpl in Hi; lia|].
  pose proof (Forall_inv His) as [Hch Hrows].
  destruct ch as [|row ch]; [simpl in Hch; lia|].
  pose proof (Forall_inv Hrows) as Hrow. cbn [hd].
  unfold shape1 in Hrow.
  rewrite Hi, Hch, Hrow, Nat.eqb_refl.
  rewrite (proj2 (Nat.ltb_lt 0 P) HP).
  rewrite (proj2 (Nat.leb_le P H) HH), (proj2 (Nat.leb_le P W) HW).
  reflexivity.
Qed.

(** X5: [PatchEmbedding] on images of any height and width of at least one
    patch: the output has [((H - P) / P + 1) * ((W - P) / P + 1)] patches,
    and the rows and columns beyond the last whole patch do not count, the
    output being that of the image cropped to whole patches. *)
Theorem PatchEmbedding_ignores_remainder (cfg : Config) (pe : PatchEmbedding)
    (B H W : nat) (input : tensor4) :
  0 < patch_size cfg -> 0 < num_channels cfg -> 0 < embed_dim cfg ->
  Conv2d_ok (num_channels cfg) (embed_dim cfg) (patch_size cfg) (pe_conv pe) ->
  patch_size cfg <= H -> patch_size cfg <= W ->
  shape4 B (num_channels cfg) H W input ->
  let P := patch_size cfg in
  exists y,
    PatchEmbedding_forward pe input = Ok y
    /\ shape3 B (conv_out H P P * conv_out W P P) (embed_dim cfg) y
    /\ PatchEmbedding_forward pe
         (map (crop (conv_out H P P * P) (conv_out W P P * P)) input)
       = Ok y.
Proof.
  intros HP HC HD Hcv HH HW Hin P.
  destruct (@PatchEmbedding_forward_floor cfg pe B H W input
              HP HC HD Hcv HH HW Hin) as (y & Ey & Hy).
  exists y. split; [exact Ey|]. split; [exact Hy|].
  rewrite <- Ey. unfold PatchEmbedding_forward, Conv2d_forward.
  rewrite rmapM_map. f_equal. apply rmapM_ext. intros img Himg.
  destruct Hin as [_ Hins]. rewrite Forall_forall in Hins.
  pose proof (Hins img Himg) as Hs.
  destruct (conv_out_le HP HH) as (H0 & Hle & He).
  destruct (conv_out_le HP HW) as (W0 & Wle & We).
  fold P in H0, Hle, He, W0, Wle, We.
  rewrite (conv2d_image_value Hcv HC HP HH HW Hs).
  rewrite (@conv2d_image_value _ _ _ (conv_out H P P * P) (conv_out W P P * P)
             (pe_conv pe) _ Hcv HC HP); fold P.
  - rewrite He, We. f_equal. apply map_ext. intros wb.
    apply map_ext_in. intros i Hi. apply in_seq in Hi.
    apply map_ext_in. intros j Hj. apply in_seq in Hj.
    f_equal. apply window_dot_crop; nia.
  - nia.
  - nia.
  - now apply crop_shape with (H := H) (W := W).
Qed.

End ShapesMore.

(** ** What the forward pass accepts *)

Section ForwardErrors.

Context {SC : Scalar} {RNG : Rng SC}.

Lemma image_dims (C H W : nat) (img : tensor3) :
  0 < C -> 0 < H -> shape3 C H W img ->
  length img = C /\ length (hd [] img) = H
  /\ length (hd [] (hd [] img)) = W.
Proof.
  intros HC HH [Hi His].
  destruct img as [|ch img]; [simpl in Hi; lia|].
  pose proof (Forall_inv His) as [Hch Hrows].
  destruct ch as [|row ch]; [simpl in Hch; lia|].
  pose proof (Forall_inv Hrows) as Hrow.
  repeat split; assumption.
Qed.

Lemma conv2d_image_rejects (C D P C' H W : nat) (cv : Conv2d) (img : tensor3) :
  Conv2d_ok C D P cv -> 0 < C' -> 0 < H -> shape3 C' H W img ->
  C' <> C \/ H < P \/ W < P ->
  conv2d_image cv img = Raise RuntimeError.
Proof.
  intros (Hc & Hk & Hs & _ & _) HC HH Himg Hbad.
  destruct (image_dims HC HH Himg) as (Hi & Hh & Hw).
  unfold conv2d_image. rewrite Hc, Hk, Hs, Hi, Hh, Hw.
  destruct Hbad as [Hb | [Hb | Hb]].
  - now rewrite (proj2 (Nat.eqb_neq C' C) Hb).
  - rewrite (proj2 (Nat.leb_gt P H) Hb). now rewrite !andb_false_r.
  - rewrite (proj2 (Nat.leb_gt P W) Hb). now rewrite !andb_false_r.
Qed.

(** X8: a batch whose images do not have [num_channels] channels, or are
    lower or narrower than one patch, is refused by the convolution of
    [PatchEmbedding], so the forward pass of the model raises a shape error
    before anything else is computed, in either mode. *)
Theorem ViT_forward_rejects_images (cfg : Config) (np : nat) (h : heap)
    (v : ViT) (training : bool) (B C H W : nat) (input : tensor4) (g : gen) :
  ViT_ok cfg np h v ->
  0 < B -> 0 < C -> 0 < H ->
  shape4 B C H W input ->
  C <> num_channels cfg \/ H < patch_size cfg \/ W < patch_size cfg ->
  PatchEmbedding_forward (patch_embedding v) input = Raise RuntimeError
  /\ ViT_forward training h v input g = Raise RuntimeError.
Proof.
  intros (Hcv & Hcls & _) HB HC HH [Hin Hins] Hbad.
  assert (E : PatchEmbedding_forward (patch_embedding v) input
              = Raise RuntimeError).
  { unfold PatchEmbedding_forward, Conv2d_forward.
    destruct input as [|img input]; [simpl in Hin; lia|].
    apply Forall_inv in Hins. simpl.
    now rewrite (conv2d_image_rejects Hcv HC HH Hins Hbad). }
  split; [exact E|].
  destruct (expand_batch_shape (length input) Hcls) as (c & Ec & _).
  unfold ViT_forward, bind, lift. now rewrite Ec, E.
Qed.

Lemma bdim_mismatch (n m : nat) :
  n <> m -> n <> 1 -> m <> 1 -> bdim n m = None.
Proof.
  intros H1 H2 H3. unfold bdim.
  now rewrite (proj2 (Nat.eqb_neq n m) H1), (proj2 (Nat.eqb_neq n 1) H2),
              (proj2 (Nat.eqb_neq m 1) H3).
Qed.

Lemma badd3_mismatch (B S S' D : nat) (x pos : tensor3) :
  0 < B -> S <> S' -> S <> 1 -> S' <> 1 ->
  shape3 B S D x -> shape3 1 S' D pos ->
  badd3 x pos = Raise RuntimeError.
Proof.
  intros HB HS H1 H1' [Hx Hxs] [Hp Hps].
  destruct pos as [|p0 [|? ?]]; try discriminate.
  apply Forall_inv in Hps. destruct Hps as [Hp0 _].
  destruct x as [|x0 x]; [simpl in Hx; lia|].
  pose proof (Forall_inv Hxs) as [Hx0 _].
  unfold badd3, broadcast2.
  replace (length (x0 :: x)) with B by (symmetry; exact Hx).
  replace (length [p0]) with 1 by reflexivity.
  rewrite bdim_batch.
  destruct B as [|B]; [lia|]. cbn [seq rmapM].
  replace (pick (x0 :: x) 0 []) with x0
    by (unfold pick; now destruct (length (x0 :: x) =? 1)).
  replace (pick [p0] 0 []) with p0 by reflexivity.
  unfold badd2 at 1. unfold broadcast2.
  replace (length x0) with S by (symmetry; exact Hx0).
  replace (length p0) with S' by (symmetry; exact Hp0).
  now rewrite (bdim_mismatch HS H1 H1').
Qed.

(** X9: the model is tied to the image size it was built for only through its
    position embedding: on a non-empty batch of images with [num_channels]
    channels and at least one patch in each direction, the forward pass
    returns [B] rows of [num_classes] logits when the images have exactly
    the [num_patches] patches of the position embedding, and raises a shape
    error at the addition of the position embedding when they have any other
    number; height and width need not be multiples of [patch_size].  The
    model is taken to have at least one patch position. *)
Theorem ViT_forward_accepts_exactly (cfg : Config) (np : nat) (h : heap)
    (v : ViT) (training : bool) (B H W : nat) (input : tensor4) (g : gen) :
  0 < patch_size cfg -> 0 < num_channels cfg -> 0 < embed_dim cfg ->
  ViT_ok cfg np h v -> 0 < np ->
  0 < B -> patch_size cfg <= H -> patch_size cfg <= W ->
  shape4 B (num_channels cfg) H W input ->
  let N := conv_out H (patch_size cfg) (patch_size cfg)
           * conv_out W (patch_size cfg) (patch_size cfg) in
  (N = np ->
   exists y g', ViT_forward training h v input g = Ok (y, g')
                /\ shape2 B (num_classes cfg) y)
  /\ (N <> np -> ViT_forward training h v input g = Raise RuntimeError).
Proof.
  intros HP HC HD (Hcv & Hcls & Hpos & Henc & Hhead) Hnp0 HB HH HW Hin N.
  destruct (@PatchEmbedding_forward_floor _ cfg (patch_embedding v) B H W input
              HP HC HD Hcv HH HW Hin) as (e & Ee & He).
  fold N in He.
  assert (HN : 0 < N).
  { destruct (conv_out_le HP HH) as (H0 & _).
    destruct (conv_out_le HP HW) as (W0 & _). unfold N. nia. }
  destruct (expand_batch_shape B Hcls) as (c & Ec & Hc).
  destruct (cat_dim1_shape HN Hc He) as (w & Ew & Hw).
  destruct Hin as [Hin _].
  split.
  - intros Hnp. rewrite <- Hnp in Hpos.
    destruct (badd3_batch Hw Hpos) as [Ea Ha].
    destruct (Dropout3_shape training (embedding_dropout v) Ha g)
      as (d & g1 & Ed & Hd).
    destruct (TransformerEncoder_forward_shape training Henc Hd g1)
      as (z & g2 & Ez & Hz).
    destruct (@select_0_shape _ B (N + 1) (embed_dim cfg) z) as (s & Es & Hs);
      [lia | exact Hz |].
    destruct (MLPHead_forward_shape Hhead Hs) as (y & Ey & Hy).
    exists y, g2. split; [|exact Hy].
    unfold ViT_forward. rewrite Hin.
    unfold bind, lift. rewrite Ec, Ee, Ew, Ea, Ed, Ez, Es, Ey. reflexivity.
  - intros Hnp.
    assert (Ea : badd3 w (position_embed_token v) = Raise RuntimeError).
    { apply badd3_mismatch
        with (B := B) (S := N + 1) (S' := np + 1) (D := embed_dim cfg);
        try assumption; lia. }
    unfold ViT_forward. rewrite Hin.
    unfold bind, lift. now rewrite Ec, Ee, Ew, Ea.
Qed.

End ForwardErrors.

(** ** Evaluation is example by example *)

Section BatchIndependence.

Context {SC : Scalar} {RNG : Rng SC}.







Lemma shape3_app (B1 B2 r c : nat) (a b : tensor3) :
  shape3 B1 r c a -> shape3 B2 r c b -> shape3 (B1 + B2) r c (a ++ b).
Proof.
  intros [Ha Has] [Hb Hbs]. split.
  - rewrite length_app. now f_equal.
  - apply Forall_app. now split.
Qed.









End BatchIndependence.

(** ** Concrete runs of the further properties *)

Lemma odd_vit_ok : @ViT_ok FX odd_config 1 odd_heap odd_vit.
Proof.
  destruct (@construct_returns FX LCG odd_config half_in_range) with (g := 1)
    as (r & g' & E & Hok); try (simpl; lia); try reflexivity.
  assert (Hb : @construct FX LCG odd_config 1 = Ok odd_built) by reflexivity.
  rewrite E in Hb. injection Hb as Hr Hg. subst r. exact Hok.
Qed.

Lemma test_accuracy_bounded_witness :
  (exists st, test_counts four_net four_examples = Ok st
              /\ correct st <= total st)
  /\ forall q, test_loop four_net four_examples = Ok q -> (0 <= q <= 100)%Q.
Proof.
  apply (@test_accuracy_bounded FX unit four_net four_examples).
  repeat constructor. exists four_logits.
  repeat split; try reflexivity. repeat constructor; discriminate.
Defined.

Lemma test_accuracy_rebatching_witness :
  @test_loop FX (list nat)
    (per_example (fun n => [fx_int (Z.of_nat n); fx_int 1]))
    [([0; 2], [0%Z; 1%Z])]
  = @test_loop FX (list nat)
      (per_example (fun n => [fx_int (Z.of_nat n); fx_int 1]))
      [([0], [0%Z]); ([2], [1%Z])].
Proof.
  apply (@test_accuracy_rebatching FX nat
           (fun n => [fx_int (Z.of_nat n); fx_int 1])).
  - intros x. discriminate.
  - repeat constructor.
  - repeat constructor.
  - reflexivity.
  - reflexivity.
Defined.


Lemma construct_outcome_witness :
  raises (@construct FX LCG (small_config 0 2 1 1 (1 # 2))) ZeroDivisionError
  /\ raises (@construct FX LCG (small_config 1 2 1 1 2)) ValueError
  /\ raises (@construct FX LCG (small_config 1 2 0 1 (1 # 2))) ValueError
  /\ raises (@construct FX LCG (small_config 1 3 2 1 (1 # 2))) AssertionError
  /\ returns (@construct FX LCG tiny_config)
              (fun r => ViT_ok tiny_config 4 (snd r) (fst r)).
Proof.
  split; [exact (@construct_outcome FX LCG (small_config 0 2 1 1 (1 # 2)))|].
  split; [exact (@construct_outcome FX LCG (small_config 1 2 1 1 2))|].
  split; [exact (@construct_outcome FX LCG (small_config 1 2 0 1 (1 # 2)))|].
  split; [exact (@construct_outcome FX LCG (small_config 1 3 2 1 (1 # 2)))|].
  exact (@construct_outcome FX LCG tiny_config).
Defined.

Lemma encoder_layers_start_equal_witness :
  returns (@TransformerEncoder_init FX LCG tiny_config [])
          (fun r => length (snd r) = 2
                    /\ exists l,
                         deref (snd r) (transformer_encoder_layer (fst r)) = Ok l
                         /\ Forall (fun a => deref (snd r) a = Ok l)
                                   (layers (full_transformer_encoder (fst r)))).
Proof.
  eapply returns_weaken.
  - apply (@encoder_layers_start_equal FX LCG tiny_config []);
      try (simpl; lia); try reflexivity.
    unfold Qle; simpl; lia.
  - intros r (H1 & _ & H3). split; [exact H1 | exact H3].
Defined.

Lemma template_layer_is_unused_witness :
  returns (@construct FX LCG tiny_config)
          (fun r =>
             ~ In (transformer_encoder_layer (transformer_encoder (fst r)))
                  (layers (full_transformer_encoder
                             (transformer_encoder (fst r))))).
Proof.
  eapply returns_weaken.
  - apply (@template_layer_is_unused FX LCG tiny_config);
      try (simpl; lia); try reflexivity.
    unfold Qle; simpl; lia.
  - intros r (H1 & _). exact H1.
Defined.

Lemma built_encoder_keeps_shape_witness :
  returns (@TransformerEncoder_init FX LCG tiny_config [])
          (fun r => returns (@TransformerEncoder_forward FX LCG true (snd r)
                               (fst r) three_tokens)
                            (@shape3 FX 1 3 2)).
Proof.
  eapply returns_weaken.
  - apply (@built_encoder_keeps_shape FX LCG tiny_config []);
      try (simpl; lia); try reflexivity.
    unfold Qle; simpl; lia.
  - intros r H. apply (H true 1 3 three_tokens). repeat constructor.
Defined.


Lemma MLPHead_accepts_exactly_witness :
  (exists y, MLPHead_forward (mlp_head tiny_vit) [[fx_int 1; fx_int 2]] = Ok y
             /\ @shape2 FX 1 2 y)
  /\ MLPHead_forward (mlp_head tiny_vit) [[fx_int 1; fx_int 2]; [fx_int 1]]
     = Raise RuntimeError.
Proof.
  assert (Hok : @MLPHead_ok FX tiny_config (mlp_head tiny_vit))
    by apply tiny_vit_ok.
  split.
  - apply (@MLPHead_accepts_exactly FX tiny_config (mlp_head tiny_vit)
             [[fx_int 1; fx_int 2]] Hok).
    repeat constructor.
  - apply (@MLPHead_accepts_exactly FX tiny_config (mlp_head tiny_vit)
             [[fx_int 1; fx_int 2]; [fx_int 1]] Hok).
    intros H. apply Forall_inv_tail, Forall_inv in H. discriminate H.
Defined.

Lemma PatchEmbedding_ignores_remainder_witness :
  exists y,
    PatchEmbedding_forward (patch_embedding odd_vit) odd_batch = Ok y
    /\ @shape3 FX 1 1 2 y
    /\ PatchEmbedding_forward (patch_embedding odd_vit)
         (map (crop 2 2) odd_batch) = Ok y.
Proof.
  apply (@PatchEmbedding_ignores_remainder FX odd_config
           (patch_embedding odd_vit) 1 3 3 odd_batch);
    try (simpl; lia).
  - apply odd_vit_ok.
  - repeat constructor.
Defined.

Lemma ViT_forward_rejects_images_witness :
  @ViT_forward FX LCG true tiny_heap tiny_vit
    [[[[fx_int 1; fx_int 2]; [fx_int 3; fx_int 4]]]] 0
  = Raise RuntimeError.
Proof.
  apply (@ViT_forward_rejects_images FX LCG tiny_config 4 tiny_heap tiny_vit
           true 1 1 2 2 [[[[fx_int 1; fx_int 2]; [fx_int 3; fx_int 4]]]] 0);
    try (simpl; lia).
  - exact tiny_vit_ok.
  - repeat constructor.
Defined.

Lemma ViT_forward_accepts_exactly_witness :
  (exists y g',
     @ViT_forward FX LCG true odd_heap odd_vit odd_batch 0 = Ok (y, g')
     /\ @shape2 FX 1 2 y)
  /\ @ViT_forward FX LCG true tiny_heap tiny_vit one_pixel 0
     = Raise RuntimeError.
Proof.
  split.
  - apply (@ViT_forward_accepts_exactly FX LCG odd_config 1 odd_heap odd_vit
             true 1 3 3 odd_batch 0);
      try (simpl; lia); try reflexivity.
    + exact odd_vit_ok.
    + repeat constructor.
  - apply (@ViT_forward_accepts_exactly FX LCG tiny_config 4 tiny_heap tiny_vit
             true 1 1 1 one_pixel 0);
      try (simpl; lia).
    + exact tiny_vit_ok.
    + repeat constructor.
Defined.


